(** * WBExpressFreqParseBot: the parsing pipeline of [webhook.js]

    A shallow embedding of the category resolver, the page scraper, the
    enrichment client and the per-user parsing session of [src/webhook.js],
    with the properties the specification states about them, followed by
    the services around them (progress messages, report export, the handlers
    of the bot and the webhook route) and what the code shows about those.

    Conventions of the embedding.
    - A JavaScript value that comes out of [JSON.parse] is a [jsval]; an
      object is the list of its own properties in enumeration order (the
      order of [Object.entries]); [undefined] is a value because property
      reads produce it.  Numbers are integers.
    - Strings are byte strings: [toLowerCase] folds the ASCII letters only
      and [length] counts bytes.
    - An [async] method is a computation in the monad [M]: it threads the
      state of the process and either returns or throws.  A thrown value is
      an [error] (the [message] of the JavaScript error and, for an HTTP
      error, the [response] of axios).  State written before a throw stays
      written.
    - The outside world (axios, the Telegram client, the file system, the
      clock) is an [Env] of replies numbered by call; the calls made are
      recorded, in order, in the [trace] of the state.  Waiting
      ([setTimeout] behind an [await]) is the trace event [ESleep]. *)

From stdpp Require Import gmap strings list pretty sorting.
From Stdlib Require Import ZArith Lia Ascii.

Set Warnings "-register-all".
Open Scope Z_scope.
Open Scope string_scope.

(** ** JavaScript values *)

Inductive jsval :=
| VUndef
| VNull
| VBool (b : bool)
| VNum (n : Z)
| VStr (s : string)
| VArr (items : list jsval)
| VObj (fields : list (string * jsval)).

(** A thrown value: [error.message] and [error.response] (status, data). *)
Record error := mkError {
  message : string;
  response : option (Z * jsval)
}.

Inductive outcome (A : Type) :=
| Ret (a : A)
| Throw (e : error).
Arguments Ret {A} a.
Arguments Throw {A} e.

(** [new Error(msg)] and the [TypeError]s of the engine. *)
Definition Error (msg : string) : error := mkError msg None.
Definition TypeError (msg : string) : error := mkError msg None.

Module Js.

(** [!!v] *)
Definition truthy (v : jsval) : bool :=
  match v with
  | VUndef | VNull => false
  | VBool b => b
  | VNum n => negb (n =? 0)%Z
  | VStr s => negb (String.eqb s "")
  | VArr _ | VObj _ => true
  end.

(** [a || b] *)
Definition or (a b : jsval) : jsval := if truthy a then a else b.

(** Own property [key] of an object, first binding. *)
Fixpoint assoc (key : string) (fields : list (string * jsval)) : option jsval :=
  match fields with
  | [] => None
  | (k, v) :: rest => if String.eqb k key then Some v else assoc key rest
  end.

(** [key in v] for an object or an array; a primitive on the right of
    [in] is a TypeError. *)
Definition has (key : string) (v : jsval) : outcome bool :=
  match v with
  | VObj fields => Ret (bool_decide (is_Some (assoc key fields)))
  | VArr _ => Ret false
  | _ => Throw (TypeError "Cannot use 'in' operator to search for a key in a primitive")
  end.

(** [v.key] for the keys the program reads, none of which is a built-in
    property except [length]. *)
Definition prop (v : jsval) (key : string) : outcome jsval :=
  match v with
  | VUndef | VNull =>
      Throw (TypeError ("Cannot read properties of null or undefined (reading '" +:+ key +:+ "')"))
  | VObj fields => Ret (default VUndef (assoc key fields))
  | VArr items =>
      Ret (if String.eqb key "length" then VNum (Z.of_nat (length items)) else VUndef)
  | VStr s =>
      Ret (if String.eqb key "length" then VNum (Z.of_nat (String.length s)) else VUndef)
  | _ => Ret VUndef
  end.

(** [v?.key] *)
Definition prop_opt (v : jsval) (key : string) : outcome jsval :=
  match v with
  | VUndef | VNull => Ret VUndef
  | _ => prop v key
  end.

(** [a !== null] *)
Definition not_null (v : jsval) : bool :=
  match v with VNull => false | _ => true end.

(** [Array.prototype.join(sep)] over strings. *)
Fixpoint join (sep : string) (l : list string) : string :=
  match l with
  | [] => ""
  | [s] => s
  | s :: rest => s +:+ sep +:+ join sep rest
  end.

(** [String(v)], the conversion of template literals and of [+] with a
    string. *)
Fixpoint ToString (v : jsval) : string :=
  match v with
  | VUndef => "undefined"
  | VNull => "null"
  | VBool true => "true"
  | VBool false => "false"
  | VNum n => pretty n
  | VStr s => s
  | VArr items =>
      join "," (map (fun x => match x with
                              | VUndef | VNull => ""
                              | _ => ToString x
                              end) items)
  | VObj _ => "[object Object]"
  end.

(** [Object.entries(v)] of a value that is not null or undefined. *)
Definition entries (v : jsval) : list (string * jsval) :=
  match v with
  | VObj fields => fields
  | VArr items => imap (fun i x => (pretty i, x)) items
  | VStr s => imap (fun i c => (pretty i, VStr (String c ""))) (String.list_ascii_of_string s)
  | _ => []
  end.

(** Assignment [o[key] = v]: an existing key keeps its place. *)
Fixpoint set (key : string) (v : jsval) (fields : list (string * jsval))
  : list (string * jsval) :=
  match fields with
  | [] => [(key, v)]
  | (k, w) :: rest =>
      if String.eqb k key then (k, v) :: rest else (k, w) :: set key v rest
  end.

(** [Object.fromEntries(l)] *)
Definition fromEntries (l : list (string * jsval)) : list (string * jsval) :=
  fold_left (fun o kv => set kv.1 kv.2 o) l [].

(** [s.toLowerCase()] *)
Definition lower_ascii (c : ascii) : ascii :=
  let n := Ascii.nat_of_ascii c in
  if ((65 <=? n) && (n <=? 90))%nat then Ascii.ascii_of_nat (n + 32) else c.

Fixpoint toLowerCase (s : string) : string :=
  match s with
  | EmptyString => EmptyString
  | String c rest => String (lower_ascii c) (toLowerCase rest)
  end.

(** [s.replace(/\/+$/, "")] *)
Fixpoint strip_trailing_slashes (s : string) : string :=
  match s with
  | EmptyString => EmptyString
  | String c rest =>
      let rest' := strip_trailing_slashes rest in
      if Ascii.eqb c "/"%char && String.eqb rest' "" then EmptyString
      else String c rest'
  end.

End Js.

(** ** The category tree and its flattening *)

Record Category := mkCategory {
  name : jsval;
  shard : jsval;
  url : jsval;
  query : jsval
}.

(** The entry pushed for a node that carries [name] and [url]. *)
Definition category_of_node (fields : list (string * jsval)) : Category :=
  {| name := default VUndef (Js.assoc "name" fields);
     shard := Js.or (default VUndef (Js.assoc "shard" fields)) VNull;
     url := default VUndef (Js.assoc "url" fields);
     query := Js.or (default VUndef (Js.assoc "query" fields)) VNull |}.

Definition carries_name_and_url (fields : list (string * jsval)) : bool :=
  bool_decide (is_Some (Js.assoc "name" fields)) &&
  bool_decide (is_Some (Js.assoc "url" fields)).

(** [processNode] of [extractCategoryData]; [categories] is the array the
    closure pushes to.  [forEach] is the callback loop over an array, and
    [childs] finds [node.childs] among the properties and runs the loop when
    it is an array. *)
Fixpoint processNode (node : jsval) (categories : list Category) : list Category :=
  match node with
  | VArr items =>
      (fix forEach (l : list jsval) (categories : list Category) :=
         match l with
         | [] => categories
         | item :: rest => forEach rest (processNode item categories)
         end) items categories
  | VObj fields =>
      let categories :=
        if carries_name_and_url fields
        then (categories ++ [category_of_node fields])%list
        else categories in
      (fix childs (fs : list (string * jsval)) :=
         match fs with
         | [] => categories
         | (k, v) :: rest =>
             if String.eqb k "childs" then
               match v with
               | VArr items =>
                   (fix forEach (l : list jsval) (categories : list Category) :=
                      match l with
                      | [] => categories
                      | child :: rest => forEach rest (processNode child categories)
                      end) items categories
               | _ => categories
               end
             else childs rest
         end) fields
  | _ => categories
  end.

(** The pure part of [extractCategoryData]: the array returned. *)
Definition extractCategories (catalog : jsval) : list Category :=
  match catalog with
  | VArr items => fold_left (fun categories item => processNode item categories) items []
  | _ => processNode catalog []
  end.

(** ** URLs

    What the resolver reads of the object built by [new URL(s)]: the
    [pathname], and the [searchParams] as the list of their name and value
    pairs, decoded, in the order of the query string. *)

Record URL := mkURL {
  pathname : string;
  searchParams : list (string * string)
}.

(** The constructor [new URL] itself belongs to the runtime and is a
    parameter of the pipeline below.  [Url.parse] gives its value on plain
    URLs, which the scenarios use: [http://host/path?query#fragment] or
    [https://...] written in printable ASCII, the host made of dot
    separated labels of lower case letters and digits the last of which
    starts with a letter, a path without dot segments, and a path and a
    query of letters, digits and the marks that the constructor neither
    encodes nor decodes (so no percent sign and no plus sign).  On such a
    string the constructor keeps the path as it is written and splits the
    query at [&] and at the first [=] of each piece.  [Url.parse] answers
    [None] on every other string, whether the constructor accepts it or
    not. *)

Module Url.

(** The text before the first [c] and, when [c] occurs, the text after it. *)
Fixpoint split_at (c : ascii) (s : string) : string * option string :=
  match s with
  | EmptyString => (EmptyString, None)
  | String d rest =>
      if Ascii.eqb d c then (EmptyString, Some rest)
      else let '(before, after) := split_at c rest in (String d before, after)
  end.

(** [s.split(c)] *)
Fixpoint split_on (c : ascii) (s : string) : list string :=
  match s with
  | EmptyString => [EmptyString]
  | String d rest =>
      if Ascii.eqb d c then EmptyString :: split_on c rest
      else match split_on c rest with
           | [] => [String d EmptyString]
           | piece :: pieces => String d piece :: pieces
           end
  end.

Definition all_chars (p : ascii -> bool) (s : string) : bool :=
  forallb p (String.list_ascii_of_string s).

Definition between (lo hi : nat) (c : ascii) : bool :=
  ((lo <=? nat_of_ascii c) && (nat_of_ascii c <=? hi))%nat.

Definition printable : ascii -> bool := between 33 126.
Definition lower_letter : ascii -> bool := between 97 122.
Definition upper_letter : ascii -> bool := between 65 90.
Definition digit : ascii -> bool := between 48 57.

(** Letters, digits and the marks left as they are in a path and in a
    query, by the constructor and by [searchParams]. *)
Definition plain (c : ascii) : bool :=
  lower_letter c || upper_letter c || digit c ||
  existsb (Ascii.eqb c) (String.list_ascii_of_string "-._~/;:@=&,!$()*").

Definition plain_label (first : ascii -> bool) (label : string) : bool :=
  match label with
  | EmptyString => false
  | String c _ => first c && all_chars (fun c => lower_letter c || digit c) label
  end.

Fixpoint plain_labels (labels : list string) : bool :=
  match labels with
  | [] => false
  | [label] => plain_label lower_letter label
  | label :: labels => plain_label (fun _ => true) label && plain_labels labels
  end.

Definition plain_host (host : string) : bool :=
  plain_labels (split_on "."%char host).

Definition plain_path (path : string) : bool :=
  all_chars plain path &&
  forallb (fun segment => negb (String.eqb segment "." || String.eqb segment ".."))
          (split_on "/"%char path).

Definition parse_pair (piece : string) : string * string :=
  let '(k, v) := split_at "="%char piece in (k, default "" v).

Definition parse_query (q : string) : list (string * string) :=
  map parse_pair (filter (fun piece => piece <> "") (split_on "&"%char q)).

Definition parse (s : string) : option URL :=
  if negb (all_chars printable s) then None else
  let '(s, _) := split_at "#"%char s in
  let '(s, q) := split_at "?"%char s in
  match split_at ":"%char s with
  | (scheme, Some (String "/" (String "/" rest))) =>
      let '(host, path) := split_at "/"%char rest in
      if (String.eqb scheme "http" || String.eqb scheme "https")
         && plain_host host
         && plain_path (default "" path)
         && all_chars plain (default "" q)
      then Some {| pathname := "/" +:+ default "" path;
                   searchParams := parse_query (default "" q) |}
      else None
  | _ => None
  end.

(** [searchParams.get(key)]: the first value, [None] for [null]. *)
Fixpoint get (key : string) (params : list (string * string)) : option string :=
  match params with
  | [] => None
  | (k, v) :: rest => if String.eqb k key then Some v else get key rest
  end.

End Url.

(** ** The process: state, outside world, effects *)

(** A report row; the columns are the keys "Название", "Количество товара"
    and "Частота товара" of the object pushed by [parseEvirmaResponse]. *)
Record Row := mkRow {
  term : string;
  productCount : jsval;
  monthlyFrequency : jsval
}.

Inductive Event :=
| ELog (level text : string)
| EGet (url : string)
| EPost (url : string) (keywords : list jsval)
| ESleep (ms : Z)
| ESendMessage (chat : Z) (text : string)
| EEditMessage (chat message_id : Z) (text : string)
| ESendDocument (chat : Z) (path : string)
| EAccess (path : string)
| EWriteFile (path : string) (rows : list Row)
| ESetTimeout (ms : Z) (unlink : string).

(** The replies of the outside world, numbered by call: [axios_reply] is
    [response.data] or the error axios throws, [telegram_reply] the
    [message_id] of the message sent or the error of the client, [fs_reply]
    the result of [fs.access] and [fs.writeFile], [clock] the successive
    values of [Date.now()]. *)
Record Env := mkEnv {
  axios_reply : nat -> outcome jsval;
  telegram_reply : nat -> outcome Z;
  fs_reply : nat -> outcome unit;
  clock : nat -> Z
}.

(** [logMessages] is the object of [LogService]; the other fields up to
    [activeParsingUsers] are those of [WildberriesParser]. *)
Record State := mkState {
  catalogData : jsval;
  results : list Row;
  activeParsingUsers : gset Z;
  logMessages : gmap Z (Z * list string);
  trace : list Event;
  axios_calls : nat;
  telegram_calls : nat;
  fs_calls : nat;
  clock_reads : nat
}.

Definition M (A : Type) : Type := State -> outcome A * State.

#[global] Instance outcome_ret : MRet outcome := fun _ a => Ret a.
#[global] Instance outcome_bind : MBind outcome := fun _ _ f o =>
  match o with
  | Ret a => f a
  | Throw e => Throw e
  end.

#[global] Instance M_ret : MRet M := fun _ a s => (Ret a, s).
#[global] Instance M_bind : MBind M := fun _ _ f m s =>
  match m s with
  | (Ret a, s') => f a s'
  | (Throw e, s') => (Throw e, s')
  end.

Definition throw {A} (e : error) : M A := fun s => (Throw e, s).

(** A pure expression that may throw. *)
Definition eval {A} (o : outcome A) : M A := fun s => (o, s).

(** [try { m } catch (e) { handler e }] *)
Definition try_catch {A} (m : M A) (handler : error -> M A) : M A := fun s =>
  match m s with
  | (Ret a, s') => (Ret a, s')
  | (Throw e, s') => handler e s'
  end.

(** [try { m } finally { cleanup }], for a [cleanup] without [return]. *)
Definition try_finally {A} (m : M A) (cleanup : M unit) : M A := fun s =>
  let '(r, s') := m s in
  match cleanup s' with
  | (Ret _, s'') => (r, s'')
  | (Throw e, s'') => (Throw e, s'')
  end.

Definition get_state : M State := fun s => (Ret s, s).
Definition modify (f : State -> State) : M unit := fun s => (Ret tt, f s).

Definition set_catalogData (v : jsval) (s : State) : State :=
  mkState v (results s) (activeParsingUsers s) (logMessages s) (trace s)
          (axios_calls s) (telegram_calls s) (fs_calls s) (clock_reads s).
Definition set_results (r : list Row) (s : State) : State :=
  mkState (catalogData s) r (activeParsingUsers s) (logMessages s) (trace s)
          (axios_calls s) (telegram_calls s) (fs_calls s) (clock_reads s).
Definition set_activeParsingUsers (a : gset Z) (s : State) : State :=
  mkState (catalogData s) (results s) a (logMessages s) (trace s)
          (axios_calls s) (telegram_calls s) (fs_calls s) (clock_reads s).
Definition set_logMessages (l : gmap Z (Z * list string)) (s : State) : State :=
  mkState (catalogData s) (results s) (activeParsingUsers s) l (trace s)
          (axios_calls s) (telegram_calls s) (fs_calls s) (clock_reads s).
Definition emit (e : Event) (s : State) : State :=
  mkState (catalogData s) (results s) (activeParsingUsers s) (logMessages s)
          (trace s ++ [e])%list
          (axios_calls s) (telegram_calls s) (fs_calls s) (clock_reads s).
Definition tick_axios (s : State) : State :=
  mkState (catalogData s) (results s) (activeParsingUsers s) (logMessages s) (trace s)
          (S (axios_calls s)) (telegram_calls s) (fs_calls s) (clock_reads s).
Definition tick_telegram (s : State) : State :=
  mkState (catalogData s) (results s) (activeParsingUsers s) (logMessages s) (trace s)
          (axios_calls s) (S (telegram_calls s)) (fs_calls s) (clock_reads s).
Definition tick_fs (s : State) : State :=
  mkState (catalogData s) (results s) (activeParsingUsers s) (logMessages s) (trace s)
          (axios_calls s) (telegram_calls s) (S (fs_calls s)) (clock_reads s).
Definition tick_clock (s : State) : State :=
  mkState (catalogData s) (results s) (activeParsingUsers s) (logMessages s) (trace s)
          (axios_calls s) (telegram_calls s) (fs_calls s) (S (clock_reads s)).

(** The state of a fresh process. *)
Definition initial_state : State :=
  mkState VNull [] ∅ ∅ [] 0 0 0 0.

(** [Array.prototype.filter] and [map] with a callback that may throw. *)
Fixpoint filterO {A} (p : A -> outcome bool) (l : list A) : outcome (list A) :=
  match l with
  | [] => Ret []
  | x :: rest =>
      keep ← p x;
      kept ← filterO p rest;
      Ret (if keep : bool then x :: kept else kept)
  end.

Fixpoint mapO {A B} (f : A -> outcome B) (l : list A) : outcome (list B) :=
  match l with
  | [] => Ret []
  | x :: rest => y ← f x; ys ← mapO f rest; Ret (y :: ys)
  end.

Definition nl : string := String (ascii_of_nat 10) "".

Section Pipeline.

(** The outside world, and three functions of the JavaScript runtime:
    [JSON.stringify], [(ms / 1000).toFixed(2)] of a number of
    milliseconds, and [new URL]. *)
Variable env : Env.
Variable JSON_stringify : jsval -> string.
Variable seconds_toFixed2 : Z -> string.

(** The constructor [new URL]; [None] is the TypeError it throws on a
    string that is not a URL. *)
Variable URL_new : string -> option URL.

(** *** Calls to the outside world *)

Definition axios_get (url : string) : M jsval := fun s =>
  (axios_reply env (axios_calls s), tick_axios (emit (EGet url) s)).

Definition axios_post (url : string) (keywords : list jsval) : M jsval := fun s =>
  (axios_reply env (axios_calls s), tick_axios (emit (EPost url keywords) s)).

Definition bot_sendMessage (chat : Z) (text : string) : M Z := fun s =>
  (telegram_reply env (telegram_calls s), tick_telegram (emit (ESendMessage chat text) s)).

Definition bot_editMessageText (text : string) (chat message_id : Z) : M unit := fun s =>
  (_ ← telegram_reply env (telegram_calls s); Ret tt,
   tick_telegram (emit (EEditMessage chat message_id text) s)).

Definition bot_sendDocument (chat : Z) (path : string) : M unit := fun s =>
  (_ ← telegram_reply env (telegram_calls s); Ret tt,
   tick_telegram (emit (ESendDocument chat path) s)).

Definition fs_access (path : string) : M unit := fun s =>
  (fs_reply env (fs_calls s), tick_fs (emit (EAccess path) s)).

Definition fs_writeFile (path : string) (rows : list Row) : M unit := fun s =>
  (fs_reply env (fs_calls s), tick_fs (emit (EWriteFile path rows) s)).

Definition Date_now : M Z := fun s => (Ret (clock env (clock_reads s)), tick_clock s).

(** [await new Promise((resolve) => setTimeout(resolve, ms))] *)
Definition sleep (ms : Z) : M unit := modify (emit (ESleep ms)).

(** *** LogService *)

(** [log(message, level)]: a failure of [fs.appendFile] is caught inside,
    so the call never throws; the time stamp of the line is left out. *)
Definition log (text level : string) : M unit := modify (emit (ELog level text)).

(** [currentLogs] is the array stored under [logMessages[userId]], so the
    [push] is in the store before the edit is attempted. *)
Definition updateLogMessage (userId : Z) (logMessage : string) : M unit :=
  log logMessage "info";;
  s ← get_state;
  match logMessages s !! userId with
  | None =>
      message_id ← bot_sendMessage userId ("📄 *Логи парсинга:*" +:+ nl +:+ logMessage);
      modify (fun s => set_logMessages (<[userId := (message_id, [logMessage])]> (logMessages s)) s)
  | Some (message_id, text) =>
      let currentLogs := (text ++ [logMessage])%list in
      modify (fun s => set_logMessages (<[userId := (message_id, currentLogs)]> (logMessages s)) s);;
      let newText := "📄 *Логи парсинга:*" +:+ nl +:+ Js.join nl currentLogs in
      try_catch (bot_editMessageText newText userId message_id)
        (fun error =>
           log ("Failed to update log for user " +:+ pretty userId +:+ ": " +:+ message error)
               "error")
  end.

(** *** FileService *)

(** [saveToExcel]: [null] is [None]; [ensureDirsExist] catches its own
    errors, and the workbook is built in memory. *)
Definition saveToExcel (data : list Row) (filename : string) : M (option string) :=
  if (length data =? 0)%nat then
    log "No data to save to Excel" "warning";; mret None
  else
    let filePath := "/tmp/output/" +:+ filename +:+ ".xlsx" in
    fs_writeFile filePath data;;
    log ("Saved Excel to " +:+ filePath) "info";;
    mret (Some filePath).

Definition DELETE_FILE_TIMEOUT : Z := 15000.

Definition sendExcelToUser (filePath filename : string) (userId : Z) : M unit :=
  try_catch
    (fs_access filePath;;
     bot_sendDocument userId filePath;;
     log ("Excel report sent to user " +:+ pretty userId +:+ ": " +:+ filePath) "info";;
     modify (emit (ESetTimeout DELETE_FILE_TIMEOUT filePath)))
    (fun error =>
       bot_sendMessage userId ("❌ Ошибка при отправке файла: " +:+ message error);;
       log ("Failed to send Excel to user " +:+ pretty userId +:+ ": " +:+ message error)
           "error").

(** *** EvirmaClient *)

(** The [try] block of [queryEvirmaApi] after the POST: [data] is
    [response.data]. *)
Definition filterEvirmaData (data : jsval) : outcome jsval :=
  d ← Js.prop data "data";
  k ← Js.prop_opt d "keywords";
  kept ← filterO (fun kv => cluster ← Js.prop kv.2 "cluster"; Ret (Js.not_null cluster))
                 (Js.entries (Js.or k (VObj [])));
  let keywords := Js.fromEntries kept in
  let filteredData := VObj [("data", VObj [("keywords", VObj keywords)])] in
  Ret (if (length keywords =? 0)%nat then VNull else filteredData).

Definition EVIRMA_MAX_RETRIES : nat := 3.

(** The [while (attempt < MAX_RETRIES)] loop with
    [remaining = MAX_RETRIES - attempt]. *)
Fixpoint queryEvirmaApi_attempts (keywords : list jsval) (remaining : nat) : M jsval :=
  match remaining with
  | O => mret VUndef
  | S remaining =>
      try_catch
        (data ← axios_post "https://evirma.ru/api/v1/keyword/list" keywords;
         eval (filterEvirmaData data))
        (fun error =>
           let attempt := (EVIRMA_MAX_RETRIES - remaining)%nat in
           if (EVIRMA_MAX_RETRIES <=? attempt)%nat then
             let errorMessage := "Ошибка при запросе к Evirma API: " +:+ message error in
             log errorMessage "error";;
             throw (Error errorMessage)
           else
             sleep 2000;;
             queryEvirmaApi_attempts keywords remaining)
  end.

Definition queryEvirmaApi (keywords : list jsval) : M jsval :=
  queryEvirmaApi_attempts keywords EVIRMA_MAX_RETRIES.

(** One turn of the [for ... of Object.entries] loop: the row pushed, or
    [None] for [continue]. *)
Definition parseEvirmaEntry (keyword : string) (keywordData : jsval) : outcome (option Row) :=
  cluster ← Js.prop keywordData "cluster";
  if negb (Js.truthy cluster) then Ret None else
  product_count ← Js.prop cluster "product_count";
  if negb (Js.truthy product_count) then Ret None else
  freq_syn ← Js.prop cluster "freq_syn";
  monthly ← Js.prop_opt freq_syn "monthly";
  if negb (Js.truthy monthly) then Ret None else
  Ret (Some {| term := keyword; productCount := product_count; monthlyFrequency := monthly |}).

Fixpoint parseEvirmaEntries (l : list (string * jsval)) (parsedData : list Row)
  : outcome (list Row) :=
  match l with
  | [] => Ret parsedData
  | (keyword, keywordData) :: rest =>
      row ← parseEvirmaEntry keyword keywordData;
      parseEvirmaEntries rest
        match row with
        | Some row => (parsedData ++ [row])%list
        | None => parsedData
        end
  end.

Definition parseEvirmaResponse (evirmaData : jsval) : outcome (list Row) :=
  d ← Js.prop_opt evirmaData "data";
  k ← Js.prop_opt d "keywords";
  if negb (Js.truthy k) then Ret [] else parseEvirmaEntries (Js.entries k) [].

(** *** WildberriesParser *)

Definition MAX_PAGES : nat := 50.
Definition RETRY_WAIT_TIME : Z := 30000.
Definition SCRAPE_MAX_RETRIES : nat := 6.

Definition fetchWbCatalog : M jsval :=
  try_catch
    (axios_get "https://static-basket-01.wbbasket.ru/vol0/data/main-menu-ru-ru-v3.json")
    (fun error =>
       log ("Error fetching WB catalog: " +:+ message error) "error";;
       throw error).

Definition extractCategoryData (catalog : jsval) : M (list Category) :=
  let categories := extractCategories catalog in
  log ("Extracted " +:+ pretty (length categories) +:+ " categories") "info";;
  mret categories.

(** [filterParams]: [searchParams.get(key) || null], and for [sort]
    [searchParams.get("sort") || "popular"]. *)
Definition filter_param (key : string) (params : list (string * string)) : jsval :=
  Js.or (from_option VStr VNull (Url.get key params)) VNull.

Definition sort_param (params : list (string * string)) : jsval :=
  Js.or (from_option VStr VNull (Url.get "sort" params)) (VStr "popular").

(** [s.toLowerCase().replace(/\/+$/, "")] of a value that must be a string. *)
Definition normalize (v : jsval) : outcome string :=
  match v with
  | VStr s => Ret (Js.strip_trailing_slashes (Js.toLowerCase s))
  | VUndef | VNull => Throw (TypeError "Cannot read properties of null or undefined (reading 'toLowerCase')")
  | _ => Throw (TypeError "cat.url.toLowerCase is not a function")
  end.

(** [categories.find(...)]: the callback runs on the entries in order up
    to the first match. *)
Fixpoint find_category (baseUrl : string) (categories : list Category)
  : outcome (option Category) :=
  match categories with
  | [] => Ret None
  | cat :: rest =>
      normalizedCatUrl ← normalize (url cat);
      normalizedSearchUrl ← normalize (VStr baseUrl);
      if String.eqb normalizedCatUrl normalizedSearchUrl then Ret (Some cat)
      else find_category baseUrl rest
  end.

(** [query += `&key=${value}`] under [if (value)]. *)
Definition append_param (key : string) (value : jsval) (query : jsval) : jsval :=
  if Js.truthy value
  then VStr (Js.ToString query +:+ "&" +:+ key +:+ "=" +:+ Js.ToString value)
  else query.

(** The object returned for a matched category: [{...category, query}]. *)
Definition with_filters (category : Category) (params : list (string * string)) : Category :=
  let query := Js.or (query category) (VStr "") in
  let query := append_param "priceU" (filter_param "priceU" params) query in
  let query := append_param "xsubject" (filter_param "xsubject" params) query in
  let query := append_param "fbrand" (filter_param "fbrand" params) query in
  let query := append_param "fsupplier" (filter_param "fsupplier" params) query in
  let query := append_param "sort" (sort_param params) query in
  {| name := name category; shard := shard category; url := url category;
     query := query |}.

Definition findCategoryByUrl (url : string) : M (option Category) :=
  try_catch
    (s ← get_state;
     (if negb (Js.truthy (catalogData s))
      then catalog ← fetchWbCatalog; modify (set_catalogData catalog)
      else mret tt);;
     urlObj ← eval (from_option Ret (Throw (TypeError "Invalid URL")) (URL_new url));
     let baseUrl := pathname urlObj in
     let params := searchParams urlObj in
     let filterParams :=
       VObj [("priceU", filter_param "priceU" params);
             ("xsubject", filter_param "xsubject" params);
             ("fbrand", filter_param "fbrand" params);
             ("fsupplier", filter_param "fsupplier" params);
             ("sort", sort_param params)] in
     log ("Searching for category with URL: " +:+ baseUrl +:+ nl +:+
          "Filter params: " +:+ JSON_stringify filterParams) "info";;
     s ← get_state;
     categories ← extractCategoryData (catalogData s);
     log ("Total categories found: " +:+ pretty (length categories)) "info";;
     category ← eval (find_category baseUrl categories);
     match category with
     | Some category =>
         log ("Found category: " +:+ Js.ToString (name category)) "info";;
         mret (Some (with_filters category params))
     | None =>
         log "Category not found in catalog" "warning";;
         mret None
     end)
    (fun error =>
       log ("Error in findCategoryByUrl: " +:+ message error) "error";;
       throw error).

(** The request URL of [scrapeWbPage]. *)
Definition page_url (page : Z) (category : Category) : string :=
  "https://catalog.wb.ru/catalog/" +:+ Js.ToString (shard category) +:+
  "/catalog?appType=1&curr=rub&dest=-1257786&locale=ru&page=" +:+ pretty page +:+
  "&sort=popular&spp=0&" +:+ Js.ToString (query category).

(** [response.data.data?.products?.length || 0] *)
Definition productsCount (data : jsval) : outcome jsval :=
  d ← Js.prop data "data";
  p ← Js.prop_opt d "products";
  n ← Js.prop_opt p "length";
  Ret (Js.or n (VNum 0)).

(** The message of the error thrown for a failure that is not a 429. *)
Definition scrape_errorMessage (page : Z) (error : error) : string :=
  let errorMessage :=
    "Ошибка при получении данных со страницы " +:+ pretty page +:+ ": " +:+ message error in
  match response error with
  | Some (status, data) =>
      let errorMessage := errorMessage +:+ nl +:+ "Статус: " +:+ pretty status in
      if Js.truthy data
      then errorMessage +:+ nl +:+ "Ответ сервера: " +:+ JSON_stringify data
      else errorMessage
  | None => errorMessage
  end.

Definition exhausted_message (page : Z) : string :=
  "Не удалось получить данные для страницы " +:+ pretty page +:+ " после " +:+
  pretty SCRAPE_MAX_RETRIES +:+ " попыток.".

Definition is_429 (error : error) : bool :=
  match response error with
  | Some (status, _) => (status =? 429)%Z
  | None => false
  end.

(** The [while (attempt < MAX_RETRIES)] loop of [scrapeWbPage] with
    [remaining = MAX_RETRIES - attempt]. *)
Fixpoint scrapeWbPage_attempts (url : string) (page : Z) (userId : Z) (remaining : nat)
  : M (jsval * string) :=
  match remaining with
  | O => throw (Error (exhausted_message page))
  | S remaining =>
      try_catch
        (data ← axios_get url;
         count ← eval (productsCount data);
         let logMessage :=
           "Страница " +:+ pretty page +:+ ": получено " +:+ Js.ToString count +:+ " товаров" in
         log url "info";;
         log logMessage "info";;
         (if (Z.rem page 10 =? 0)%Z
          then log "Ждем 10 секунд после 10 запросов..." "info";; sleep 10000
          else sleep 2000);;
         mret (data, logMessage))
        (fun error =>
           let attempt := (SCRAPE_MAX_RETRIES - remaining)%nat in
           if is_429 error then
             let retryMessage :=
               "ℹ️ Возникла ошибка с лимитом Wildberries, отправим через " +:+
               pretty (RETRY_WAIT_TIME / 1000)%Z +:+ " секунд." in
             log retryMessage "warning";;
             message_id ← bot_sendMessage userId retryMessage;
             sleep RETRY_WAIT_TIME;;
             let updateMessage :=
               "Отправляем запрос для получения данных для страницы " +:+ pretty page +:+
               ", попытка: " +:+ pretty attempt in
             bot_editMessageText updateMessage userId message_id;;
             log updateMessage "info";;
             scrapeWbPage_attempts url page userId remaining
           else
             let errorMessage := scrape_errorMessage page error in
             log errorMessage "error";;
             throw (Error errorMessage))
  end.

Definition scrapeWbPage (page : Z) (category : Category) (userId : Z) : M (jsval * string) :=
  let url := page_url page category in
  log ("URL : " +:+ url) "info";;
  scrapeWbPage_attempts url page userId SCRAPE_MAX_RETRIES.

(** [queue.add(task)] resolves to what the task returns or throws. *)
Definition queue_add {A} (task : M A) : M A := task.

Definition scrapeWbPageWithQueue (page : Z) (category : Category) (userId : Z)
  : M (jsval * string) :=
  queue_add (scrapeWbPage page category userId).

Definition processProducts (productsData : jsval) : outcome (list jsval) :=
  d ← Js.prop productsData "data";
  p ← Js.prop_opt d "products";
  match Js.or p (VArr []) with
  | VArr products =>
      named ← filterO (Js.has "name") products;
      mapO (fun product => Js.prop product "name") named
  | _ => Throw (TypeError "(intermediate value).filter is not a function")
  end.

(** *** The parsing session *)

Inductive signal := Continue | Break.

(** The message object the Telegram client resolves to; only its
    [message_id] is kept. *)
Definition message_object (message_id : Z) : jsval :=
  VObj [("message_id", VNum message_id)].

(** The body of the [for] loop of [parseCategory] for one page. *)
Definition parsePage (page : Z) (category : Category) (userId : Z) : M signal :=
  try_catch
    ('(data, logMessage) ← scrapeWbPageWithQueue page category userId;
     updateLogMessage userId logMessage;;
     products ← eval (processProducts data);
     if (length products =? 0)%nat then
       log ("Page " +:+ pretty page +:+ ": no products found, stopping parsing.") "info";;
       mret Break
     else
       evirmaResponse ←
         try_catch
           (evirmaResponse ← queryEvirmaApi products;
            mret (if negb (Js.truthy evirmaResponse) then None else Some evirmaResponse))
           (fun error =>
              bot_sendMessage userId ("❌ " +:+ message error);;
              mret None);
       match evirmaResponse with
       | None => mret Break
       | Some evirmaResponse =>
           pageResults ← eval (parseEvirmaResponse evirmaResponse);
           modify (fun s => set_results (results s ++ pageResults)%list s);;
           mret Continue
       end)
    (fun error =>
       bot_sendMessage userId ("❌ " +:+ message error);;
       mret Break).

(** [for (let page = ...; page <= MAX_PAGES; page++)] with
    [remaining = MAX_PAGES - page + 1]. *)
Fixpoint parsePages (remaining : nat) (page : Z) (category : Category) (userId : Z)
  : M unit :=
  match remaining with
  | O => mret tt
  | S remaining =>
      sig ← parsePage page category userId;
      match sig with
      | Break => mret tt
      | Continue => parsePages remaining (page + 1) category userId
      end
  end.

(** What follows the loop in the [try] block. *)
Definition report (category : Category) (userId : Z) : M jsval :=
  s ← get_state;
  if (length (results s) =? 0)%nat then
    message_id ← bot_sendMessage userId
      ("📊 Найдены товары, но у всех частота поиска равна 0." +:+ nl +:+
       "Возможно, эти товары редко ищут или они новые в каталоге.");
    mret (message_object message_id)
  else
    (if (0 <? length (results s))%nat then
       now ← Date_now;
       let filename := Js.ToString (name category) +:+ "_analysis_" +:+ pretty now in
       filePath ← saveToExcel (results s) filename;
       match filePath with
       | Some filePath => sendExcelToUser filePath filename userId
       | None => mret tt
       end
     else
       bot_sendMessage userId
         "❌ Не найдено товаров в данной категории с указанными фильтрами.";;
       mret tt);;
    mret (VBool true).

(** The [try] block of [parseCategory]. *)
Definition parseCategory_try (url : string) (userId : Z) : M jsval :=
  category ← findCategoryByUrl url;
  match category with
  | None =>
      log "Category not found. Check the URL." "warning";;
      mret (VBool false)
  | Some category =>
      parsePages MAX_PAGES 1 category userId;;
      report category userId
  end.

Definition parseCategory_catch (error : error) : M jsval :=
  log ("Parsing error: " +:+ message error) "error";;
  mret (VBool false).

Definition parseCategory_finally (userId startTime : Z) : M unit :=
  modify (fun s => set_activeParsingUsers (activeParsingUsers s ∖ {[userId]}) s);;
  now ← Date_now;
  log ("Total parsing time: " +:+ seconds_toFixed2 (now - startTime) +:+ " seconds") "info".

Definition parseCategory (url : string) (userId : Z) : M jsval :=
  s ← get_state;
  if bool_decide (userId ∈ activeParsingUsers s) then
    log ("Parsing already in progress for user " +:+ pretty userId) "info";;
    mret (VBool false)
  else
    modify (fun s => set_activeParsingUsers ({[userId]} ∪ activeParsingUsers s) s);;
    startTime ← Date_now;
    modify (set_results []);;
    try_finally
      (try_catch (parseCategory_try url userId) parseCategory_catch)
      (parseCategory_finally userId startTime).

End Pipeline.

(** * Properties *)

(** Unfolds the combinators of [M] and [outcome]. *)
Ltac unfold_M :=
  unfold mbind, mret, M_bind, M_ret, outcome_bind, outcome_ret,
         try_catch, try_finally, throw, eval, modify, get_state in *.

Lemma string_app_assoc (a b c : string) : (a +:+ b) +:+ c = a +:+ (b +:+ c).
Proof.
  induction a as [|x a IH]; [reflexivity|].
  change (String x ((a +:+ b) +:+ c) = String x (a +:+ (b +:+ c))). by rewrite IH.
Qed.

Lemma string_app_nil_r (a : string) : a +:+ "" = a.
Proof.
  induction a as [|x a IH]; [reflexivity|].
  change (String x (a +:+ "") = String x a). by rewrite IH.
Qed.

(** ** The resolver *)

(** The catalog the scenarios of the specification use. *)
Definition scenario_tree : jsval :=
  VArr [VObj [("name", VStr "Dom"); ("url", VStr "/catalog/dom");
              ("childs", VArr [VObj [("name", VStr "Vannaya");
                                     ("url", VStr "/catalog/dom/vannaya")]])]].

(** A world in which the catalog request is answered with [scenario_tree],
    every later request fails at the network, and the Telegram client and
    the file system work. *)
Definition scenario_env : Env :=
  {| axios_reply := fun n => match n with
                             | O => Ret scenario_tree
                             | _ => Throw (Error "Network Error")
                             end;
     telegram_reply := fun n => Ret (Z.of_nat n);
     fs_reply := fun _ => Ret tt;
     clock := fun n => Z.of_nat n |}.

(** The resolver has the catalog [tree] in hand: cached in the state, or
    not cached and served by the next request. *)
Definition catalog_is (env : Env) (s : State) (tree : jsval) : Prop :=
  catalogData s = tree /\ Js.truthy tree = true \/
  Js.truthy (catalogData s) = false /\ axios_reply env (axios_calls s) = Ret tree.

(** A category comes out of [findCategoryByUrl] only as the first entry of
    the flattened catalog whose normalised [url] is the normalised path,
    with the filters of the URL merged in. *)
Lemma findCategoryByUrl_Some env J P url st c st' :
  findCategoryByUrl env J P url st = (Ret (Some c), st') ->
  exists u node,
    P url = Some u /\
    find_category (pathname u) (extractCategories (catalogData st')) = Ret (Some node) /\
    c = with_filters node (searchParams u).
Proof.
  unfold findCategoryByUrl, fetchWbCatalog, extractCategoryData, log, axios_get.
  unfold_M. intros H.
  destruct (Js.truthy (catalogData st)) eqn:Ht; simpl in H.
  - destruct (P url) as [u|] eqn:Hu; simpl in H; [|discriminate].
    destruct (find_category _ _) as [[node|]|] eqn:Hf; simpl in H; try discriminate.
    injection H as <- <-. exists u, node. simpl. auto.
  - destruct (axios_reply env (axios_calls st)) as [cat|e] eqn:Ha; simpl in H; [|discriminate].
    destruct (P url) as [u|] eqn:Hu; simpl in H; [|discriminate].
    destruct (find_category _ _) as [[node|]|] eqn:Hf; simpl in H; try discriminate.
    injection H as <- <-. exists u, node. simpl. auto.
Qed.

(** With the catalog in hand, a URL that parses and a path that matches,
    the resolver returns the matched entry with the filters merged in. *)
Lemma findCategoryByUrl_found env J P url st tree u node :
  catalog_is env st tree ->
  P url = Some u ->
  find_category (pathname u) (extractCategories tree) = Ret (Some node) ->
  exists st', findCategoryByUrl env J P url st = (Ret (Some (with_filters node (searchParams u))), st')
              /\ catalogData st' = tree.
Proof.
  intros [[Hc Ht]|[Ht Ha]] Hu Hf.
  - unfold findCategoryByUrl, fetchWbCatalog, extractCategoryData, log, axios_get.
    unfold_M. rewrite Hc, Ht. simpl. rewrite Hu. simpl. rewrite Hc, Hf. simpl.
    eexists. split; [reflexivity|]. simpl. done.
  - unfold findCategoryByUrl, fetchWbCatalog, extractCategoryData, log, axios_get.
    unfold_M. rewrite Ht. simpl. rewrite Ha. simpl. rewrite Hu. simpl. rewrite Hf. simpl.
    eexists. split; [reflexivity|]. simpl. done.
Qed.

(** C6, as stated, fails: on the scenario tree and the URL
    [https://x/catalog/dom/vannaya?sort=newly] the resolver does not return
    a category whose query is exactly [sort=newly]. *)
Lemma resolver_scenario_query_not_bare :
  ~ exists c st',
      findCategoryByUrl scenario_env (fun _ => "") Url.parse "https://x/catalog/dom/vannaya?sort=newly"
        initial_state = (Ret (Some c), st')
      /\ name c = VStr "Vannaya" /\ query c = VStr "sort=newly".
Proof.
  intros (c & st' & H & _ & Hq).
  vm_compute in H. injection H as <- _. discriminate Hq.
Qed.

(** C6, amended: on the scenario tree and the URL
    [https://x/catalog/dom/vannaya?sort=newly] the resolver returns the
    category named [Vannaya] with query exactly [&sort=newly]: the filter is
    appended to the empty base query with its leading ampersand. *)
Theorem resolver_scenario env J st :
  catalog_is env st scenario_tree ->
  exists st',
    findCategoryByUrl env J Url.parse "https://x/catalog/dom/vannaya?sort=newly" st =
      (Ret (Some {| name := VStr "Vannaya"; shard := VNull;
                    url := VStr "/catalog/dom/vannaya";
                    query := VStr "&sort=newly" |}), st').
Proof.
  intros Hc.
  destruct (findCategoryByUrl_found env J Url.parse "https://x/catalog/dom/vannaya?sort=newly"
              st scenario_tree
              {| pathname := "/catalog/dom/vannaya"; searchParams := [("sort", "newly")] |}
              {| name := VStr "Vannaya"; shard := VNull;
                 url := VStr "/catalog/dom/vannaya"; query := VNull |} Hc)
    as (st' & H & _); [reflexivity|reflexivity|].
  exists st'. exact H.
Qed.

Lemma resolver_scenario_witness :
  exists st',
    findCategoryByUrl scenario_env (fun _ => "") Url.parse "https://x/catalog/dom/vannaya?sort=newly"
      initial_state =
      (Ret (Some {| name := VStr "Vannaya"; shard := VNull;
                    url := VStr "/catalog/dom/vannaya";
                    query := VStr "&sort=newly" |}), st').
Proof.
  apply (resolver_scenario scenario_env (fun _ => "") initial_state).
  right. split; reflexivity.
Defined.

(** The text a filter contributes to the query: [&key=value] for a
    parameter whose first value in the URL is not empty. *)
Definition nonempty_param (key : string) (params : list (string * string)) : string :=
  match Url.get key params with
  | Some v => if String.eqb v "" then "" else "&" +:+ key +:+ "=" +:+ v
  | None => ""
  end.

(** The value of [sort]: that of the URL unless missing or empty. *)
Definition sort_value (params : list (string * string)) : string :=
  match Url.get "sort" params with
  | Some v => if String.eqb v "" then "popular" else v
  | None => "popular"
  end.

(** The base query of a node: [category.query || ""], as text. *)
Definition base_query (node : Category) : string :=
  Js.ToString (Js.or (query node) (VStr "")).

(** The reading of C7 as stated: a parameter that occurs in the URL is
    appended, whatever its value. *)
Definition present_param (key : string) (params : list (string * string)) : string :=
  match Url.get key params with
  | Some v => "&" +:+ key +:+ "=" +:+ v
  | None => ""
  end.

Lemma filter_param_append key params q :
  append_param key (filter_param key params) q =
    if String.eqb (nonempty_param key params) "" then q
    else VStr (Js.ToString q +:+ nonempty_param key params).
Proof.
  unfold append_param, filter_param, nonempty_param, Js.or.
  destruct (Url.get key params) as [v|]; simpl; [|reflexivity].
  destruct (String.eqb v "") eqn:E; simpl; rewrite ?E; simpl; reflexivity.
Qed.

Lemma sort_param_value params : sort_param params = VStr (sort_value params).
Proof.
  unfold sort_param, sort_value, Js.or.
  destruct (Url.get "sort" params) as [v|]; simpl; [|reflexivity].
  destruct (String.eqb v ""); reflexivity.
Qed.

Lemma sort_value_nonempty params : String.eqb (sort_value params) "" = false.
Proof.
  unfold sort_value. destruct (Url.get "sort" params) as [v|]; [|reflexivity].
  destruct (String.eqb v "") eqn:E; [reflexivity|exact E].
Qed.

Lemma grow_query (q : jsval) (p : string) :
  Js.ToString (if String.eqb p "" then q else VStr (Js.ToString q +:+ p)) =
  Js.ToString q +:+ p.
Proof.
  destruct (String.eqb p "") eqn:E.
  - apply String.eqb_eq in E. subst p. by rewrite string_app_nil_r.
  - reflexivity.
Qed.

(** The query of the object [findCategoryByUrl] returns. *)
Lemma with_filters_query node params :
  query (with_filters node params) =
    VStr (base_query node +:+
          nonempty_param "priceU" params +:+ nonempty_param "xsubject" params +:+
          nonempty_param "fbrand" params +:+ nonempty_param "fsupplier" params +:+
          "&sort=" +:+ sort_value params).
Proof.
  unfold with_filters, base_query. cbn [query].
  rewrite !filter_param_append, sort_param_value.
  unfold append_param at 1. cbn [Js.truthy]. rewrite sort_value_nonempty. cbn [negb].
  cbn [Js.ToString]. rewrite !grow_query, !string_app_assoc. reflexivity.
Qed.

(** C7, as stated, fails: a parameter that occurs in the URL with an empty
    value ([?priceU=]) is not appended. *)
Lemma merge_skips_empty_parameter :
  ~ forall url c st',
      findCategoryByUrl scenario_env (fun _ => "") Url.parse url initial_state = (Ret (Some c), st') ->
      exists u node,
        Url.parse url = Some u /\
        find_category (pathname u) (extractCategories (catalogData st')) = Ret (Some node) /\
        query c =
          VStr (base_query node +:+
                present_param "priceU" (searchParams u) +:+
                present_param "xsubject" (searchParams u) +:+
                present_param "fbrand" (searchParams u) +:+
                present_param "fsupplier" (searchParams u) +:+
                "&sort=" +:+ default "popular" (Url.get "sort" (searchParams u))).
Proof.
  intros H.
  destruct (H "https://x/catalog/dom?priceU="
              {| name := VStr "Dom"; shard := VNull; url := VStr "/catalog/dom";
                 query := VStr "&sort=popular" |}
              (findCategoryByUrl scenario_env (fun _ => "") Url.parse "https://x/catalog/dom?priceU="
                 initial_state).2 eq_refl)
    as (u & node & Hu & Hn & Hq).
  vm_compute in Hu. injection Hu as <-.
  vm_compute in Hn. injection Hn as <-.
  vm_compute in Hq. discriminate Hq.
Qed.

(** C7, amended: the query of a resolved category is the base query of the
    matched node followed by [&key=value] for each of [priceU], [xsubject],
    [fbrand], [fsupplier], in this order, whose first value in the URL, as
    [searchParams.get] returns it (decoded), is not empty, and then by
    [&sort=value], where the value is [popular] when the URL has no [sort]
    parameter or an empty one.  The values are appended as
    [searchParams.get] returns them, whatever the constructor [new URL]
    makes of the input. *)
Theorem merged_query_order env J P url st c st' :
  findCategoryByUrl env J P url st = (Ret (Some c), st') ->
  exists u node,
    P url = Some u /\
    find_category (pathname u) (extractCategories (catalogData st')) = Ret (Some node) /\
    query c =
      VStr (base_query node +:+
            nonempty_param "priceU" (searchParams u) +:+
            nonempty_param "xsubject" (searchParams u) +:+
            nonempty_param "fbrand" (searchParams u) +:+
            nonempty_param "fsupplier" (searchParams u) +:+
            "&sort=" +:+ sort_value (searchParams u)).
Proof.
  intros H. destruct (findCategoryByUrl_Some _ _ _ _ _ _ _ H) as (u & node & Hu & Hn & ->).
  exists u, node. split; [done|]. split; [done|]. apply with_filters_query.
Qed.

Lemma merged_query_order_witness :
  exists u node,
    Url.parse "https://x/catalog/dom/?fbrand=7&priceU=100;500&sort=" = Some u /\
    find_category (pathname u) (extractCategories scenario_tree) = Ret (Some node) /\
    VStr "&priceU=100;500&fbrand=7&sort=popular" =
      VStr (base_query node +:+
            nonempty_param "priceU" (searchParams u) +:+
            nonempty_param "xsubject" (searchParams u) +:+
            nonempty_param "fbrand" (searchParams u) +:+
            nonempty_param "fsupplier" (searchParams u) +:+
            "&sort=" +:+ sort_value (searchParams u)).
Proof.
  apply (merged_query_order scenario_env (fun _ => "") Url.parse
           "https://x/catalog/dom/?fbrand=7&priceU=100;500&sort=" initial_state
           {| name := VStr "Dom"; shard := VNull; url := VStr "/catalog/dom";
              query := VStr "&priceU=100;500&fbrand=7&sort=popular" |}
           (findCategoryByUrl scenario_env (fun _ => "") Url.parse
              "https://x/catalog/dom/?fbrand=7&priceU=100;500&sort=" initial_state).2).
  vm_compute. reflexivity.
Defined.

(** A value written with percent signs is merged decoded: the constructor
    gives the value [10000;50000] for [?priceU=10000%3B50000], and this is
    what the query gets.  ([Url.parse] leaves such a string out.) *)
Lemma decoded_value_is_merged :
  let url := "https://x/catalog/dom?priceU=10000%3B50000" in
  let URL_new := fun _ : string =>
    Some {| pathname := "/catalog/dom"; searchParams := [("priceU", "10000;50000")] |} in
  Url.parse url = None /\
  (findCategoryByUrl scenario_env (fun _ => "") URL_new url initial_state).1 =
    Ret (Some {| name := VStr "Dom"; shard := VNull; url := VStr "/catalog/dom";
                 query := VStr "&priceU=10000;50000&sort=popular" |}).
Proof. split; vm_compute; reflexivity. Qed.

(** ** What every step of the pipeline leaves alone

    No method called from the [try] block of [parseCategory] writes
    [activeParsingUsers], and the trace only grows. *)

Definition step_ok (s s' : State) : Prop :=
  activeParsingUsers s' = activeParsingUsers s /\ trace s `prefix_of` trace s'.

Definition respects {A} (m : M A) : Prop := forall s, step_ok s (m s).2.

Lemma step_ok_refl s : step_ok s s.
Proof. split; reflexivity. Qed.

Lemma step_ok_trans s1 s2 s3 : step_ok s1 s2 -> step_ok s2 s3 -> step_ok s1 s3.
Proof. intros [Ha Ht] [Ha' Ht']. split; [congruence|by etrans]. Qed.

Lemma step_ok_emit e s : step_ok s (emit e s).
Proof. split; [reflexivity|]. simpl. by apply prefix_app_r. Qed.

Create HintDb respects discriminated.

Lemma respects_ret {A} (a : A) : respects (mret a).
Proof. intros s. apply step_ok_refl. Qed.

Lemma respects_throw {A} e : respects (@throw A e).
Proof. intros s. apply step_ok_refl. Qed.

Lemma respects_eval {A} (o : outcome A) : respects (eval o).
Proof. intros s. apply step_ok_refl. Qed.

Lemma respects_get_state : respects get_state.
Proof. intros s. apply step_ok_refl. Qed.

Lemma respects_modify f : (forall s, step_ok s (f s)) -> respects (modify f).
Proof. intros H s. apply H. Qed.

Lemma respects_bind {A B} (m : M A) (k : A -> M B) :
  respects m -> (forall a, respects (k a)) -> respects (m ≫= k).
Proof.
  intros Hm Hk s. specialize (Hm s). unfold_M.
  destruct (m s) as [[a|e] s']; simpl in *; [|done].
  eapply step_ok_trans; [exact Hm|apply Hk].
Qed.

Lemma respects_try_catch {A} (m : M A) (h : error -> M A) :
  respects m -> (forall e, respects (h e)) -> respects (try_catch m h).
Proof.
  intros Hm Hh s. specialize (Hm s). unfold_M.
  destruct (m s) as [[a|e] s']; simpl in *; [done|].
  eapply step_ok_trans; [exact Hm|apply Hh].
Qed.

Lemma respects_if {A} (b : bool) (m1 m2 : M A) :
  respects m1 -> respects m2 -> respects (if b then m1 else m2).
Proof. by destruct b. Qed.

#[global] Hint Resolve respects_ret respects_throw respects_eval respects_get_state
  respects_if : respects.

(** Splits a computation along its combinators down to the calls above. *)
Ltac respects :=
  repeat first
    [ progress auto with respects
    | apply respects_bind; [|intros ?]
    | apply respects_try_catch; [|intros ?]
    | apply respects_modify; intros ?; apply step_ok_refl
    | match goal with
      | |- respects (match ?x with _ => _ end) => destruct x
      | |- respects (let '(_, _) := ?x in _) => destruct x
      end ].

Section Frame.

Variable env : Env.
Variable JSON_stringify : jsval -> string.
Variable URL_new : string -> option URL.

Lemma respects_log text level : respects (log text level).
Proof. apply respects_modify. intros s. apply step_ok_emit. Qed.

Lemma respects_sleep ms : respects (sleep ms).
Proof. apply respects_modify. intros s. apply step_ok_emit. Qed.

Lemma respects_axios_get url : respects (axios_get env url).
Proof. intros s. split; [reflexivity|]. simpl. by apply prefix_app_r. Qed.

Lemma respects_axios_post url kws : respects (axios_post env url kws).
Proof. intros s. split; [reflexivity|]. simpl. by apply prefix_app_r. Qed.

Lemma respects_bot_sendMessage chat text : respects (bot_sendMessage env chat text).
Proof. intros s. split; [reflexivity|]. simpl. by apply prefix_app_r. Qed.

Lemma respects_bot_editMessageText text chat mid :
  respects (bot_editMessageText env text chat mid).
Proof. intros s. split; [reflexivity|]. simpl. by apply prefix_app_r. Qed.

Lemma respects_bot_sendDocument chat path : respects (bot_sendDocument env chat path).
Proof. intros s. split; [reflexivity|]. simpl. by apply prefix_app_r. Qed.

Lemma respects_fs_access path : respects (fs_access env path).
Proof. intros s. split; [reflexivity|]. simpl. by apply prefix_app_r. Qed.

Lemma respects_fs_writeFile path rows : respects (fs_writeFile env path rows).
Proof. intros s. split; [reflexivity|]. simpl. by apply prefix_app_r. Qed.

Lemma respects_Date_now : respects (Date_now env).
Proof. intros s. split; reflexivity. Qed.

Hint Resolve respects_log respects_sleep respects_axios_get respects_axios_post
  respects_bot_sendMessage respects_bot_editMessageText respects_bot_sendDocument
  respects_fs_access respects_fs_writeFile respects_Date_now : respects.

Lemma respects_updateLogMessage userId logMessage :
  respects (updateLogMessage env userId logMessage).
Proof. unfold updateLogMessage. respects. Qed.

Lemma respects_saveToExcel data filename : respects (saveToExcel env data filename).
Proof. unfold saveToExcel. respects. Qed.

Lemma respects_sendExcelToUser filePath filename userId :
  respects (sendExcelToUser env filePath filename userId).
Proof.
  unfold sendExcelToUser. respects. apply respects_modify. intros s. apply step_ok_emit.
Qed.

Lemma respects_queryEvirmaApi_attempts keywords remaining :
  respects (queryEvirmaApi_attempts env keywords remaining).
Proof. induction remaining as [|r IH]; simpl; respects. Qed.

Lemma respects_queryEvirmaApi keywords : respects (queryEvirmaApi env keywords).
Proof. apply respects_queryEvirmaApi_attempts. Qed.

Lemma respects_fetchWbCatalog : respects (fetchWbCatalog env).
Proof. unfold fetchWbCatalog. respects. Qed.

Lemma respects_extractCategoryData catalog : respects (extractCategoryData catalog).
Proof. unfold extractCategoryData. respects. Qed.

Hint Resolve respects_updateLogMessage respects_saveToExcel respects_sendExcelToUser
  respects_queryEvirmaApi respects_fetchWbCatalog respects_extractCategoryData : respects.

Lemma respects_findCategoryByUrl url : respects (findCategoryByUrl env JSON_stringify URL_new url).
Proof. unfold findCategoryByUrl. respects. Qed.

Lemma respects_scrapeWbPage_attempts url page userId remaining :
  respects (scrapeWbPage_attempts env JSON_stringify url page userId remaining).
Proof. induction remaining as [|r IH]; simpl; respects. Qed.

Hint Resolve respects_scrapeWbPage_attempts respects_findCategoryByUrl : respects.

Lemma respects_scrapeWbPage page category userId :
  respects (scrapeWbPage env JSON_stringify page category userId).
Proof. unfold scrapeWbPage. respects. Qed.

Lemma respects_scrapeWbPageWithQueue page category userId :
  respects (scrapeWbPageWithQueue env JSON_stringify page category userId).
Proof. apply respects_scrapeWbPage. Qed.

Hint Resolve respects_scrapeWbPageWithQueue : respects.

Lemma respects_parsePage page category userId :
  respects (parsePage env JSON_stringify page category userId).
Proof. unfold parsePage. respects. Qed.

Hint Resolve respects_parsePage : respects.

Lemma respects_parsePages remaining page category userId :
  respects (parsePages env JSON_stringify remaining page category userId).
Proof. revert page. induction remaining as [|r IH]; intros page; simpl; respects. Qed.

Lemma respects_report category userId : respects (report env category userId).
Proof. unfold report. respects. Qed.

Hint Resolve respects_parsePages respects_report : respects.

Lemma respects_parseCategory_try url userId :
  respects (parseCategory_try env JSON_stringify URL_new url userId).
Proof. unfold parseCategory_try. respects. Qed.

Lemma respects_parseCategory_catch error : respects (parseCategory_catch error).
Proof. unfold parseCategory_catch. respects. Qed.

End Frame.

#[global] Hint Resolve respects_log respects_sleep respects_axios_get respects_axios_post
  respects_bot_sendMessage respects_bot_editMessageText respects_bot_sendDocument
  respects_fs_access respects_fs_writeFile respects_Date_now
  respects_updateLogMessage respects_saveToExcel respects_sendExcelToUser
  respects_queryEvirmaApi respects_fetchWbCatalog respects_extractCategoryData
  respects_scrapeWbPage_attempts respects_findCategoryByUrl
  respects_scrapeWbPageWithQueue respects_parsePage respects_parsePages respects_report
  respects_parseCategory_try respects_parseCategory_catch : respects.

(** ** The request URL of the scraper *)

(** Every call of [scrapeWbPage] logs the URL it built and then requests
    it. *)
Lemma scrapeWbPage_requests_page_url env J page category userId s :
  exists rest,
    trace (scrapeWbPage env J page category userId s).2 =
      (trace s ++ ELog "info" ("URL : " +:+ page_url page category)
                 :: EGet (page_url page category) :: rest)%list.
Proof.
  unfold scrapeWbPage, SCRAPE_MAX_RETRIES, log.
  set (url := page_url page category).
  unfold mbind at 1, M_bind at 1, modify at 1.
  set (s1 := emit _ s). cbn [scrapeWbPage_attempts].
  unfold try_catch at 1. unfold mbind at 1, M_bind at 1, axios_get at 1.
  set (s2 := tick_axios _).
  assert (Hs2 : trace s2 = (trace s ++ [ELog "info" ("URL : " +:+ url); EGet url])%list).
  { subst s2 s1. simpl. by rewrite <- app_assoc. }
  assert (Hgrow : forall (m : M (jsval * string)), respects m ->
             exists rest, trace (m s2).2 =
               (trace s ++ ELog "info" ("URL : " +:+ url) :: EGet url :: rest)%list).
  { intros m Hm. destruct (Hm s2) as [_ Hp]. destruct Hp as [more Hmore]. exists more.
    rewrite Hmore, Hs2, <- app_assoc. reflexivity. }
  destruct (axios_reply env (axios_calls s1)) as [data|e].
  - match goal with
    | |- context [(?m s2)] =>
        destruct (Hgrow m) as [rest Hrest]; [respects|];
        destruct (m s2) as [[a|e] s3]
    end; simpl in *; [by exists rest|].
    match goal with
    | |- context [(?m s3)] => assert (Hm : respects m) by respects; destruct (Hm s3) as [_ Hp]
    end.
    destruct Hp as [more Hmore]. exists (rest ++ more)%list.
    rewrite Hmore, Hrest. rewrite <- app_assoc. reflexivity.
  - match goal with
    | |- context [(?m s2)] => destruct (Hgrow m) as [rest Hrest]; [respects|]
    end.
    by exists rest.
Qed.

(** The filters merged into the query before the final [sort]. *)
Definition merged_filters (node : Category) (params : list (string * string)) : string :=
  base_query node +:+
  nonempty_param "priceU" params +:+ nonempty_param "xsubject" params +:+
  nonempty_param "fbrand" params +:+ nonempty_param "fsupplier" params.

(** C10: for every resolved category and page, the URL the scraper requests
    is the fixed prefix with [appType=1], [curr=rub], [dest=-1257786],
    [locale=ru], the page, [sort=popular] and [spp=0], followed by the
    merged query, which ends with [&sort=] and the value chosen in the input
    URL (or [popular]): the [sort] key occurs once in the fixed part and
    once more, last, with the chosen value.  The values merged are those
    [searchParams.get] returns, whatever the constructor [new URL] makes of
    the input. *)
Theorem request_url_sort_twice env J P url st c st' page userId s :
  findCategoryByUrl env J P url st = (Ret (Some c), st') ->
  exists u node rest,
    P url = Some u /\
    find_category (pathname u) (extractCategories (catalogData st')) = Ret (Some node) /\
    page_url page c =
      "https://catalog.wb.ru/catalog/" +:+ Js.ToString (shard node) +:+
      "/catalog?appType=1&curr=rub&dest=-1257786&locale=ru&page=" +:+ pretty page +:+
      "&sort=popular&spp=0&" +:+ merged_filters node (searchParams u) +:+
      "&sort=" +:+ sort_value (searchParams u) /\
    trace (scrapeWbPage env J page c userId s).2 =
      (trace s ++ ELog "info" ("URL : " +:+ page_url page c)
                 :: EGet (page_url page c) :: rest)%list.
Proof.
  intros H. destruct (findCategoryByUrl_Some _ _ _ _ _ _ _ H) as (u & node & Hu & Hn & ->).
  destruct (scrapeWbPage_requests_page_url env J page
              (with_filters node (searchParams u)) userId s) as [rest Hrest].
  exists u, node, rest. repeat split; try done.
  unfold page_url. rewrite with_filters_query. cbn [Js.ToString shard with_filters].
  unfold merged_filters. rewrite !string_app_assoc. reflexivity.
Qed.

Lemma request_url_sort_twice_witness :
  exists u node rest,
    Url.parse "https://x/catalog/dom/vannaya?sort=newly" = Some u /\
    find_category (pathname u) (extractCategories scenario_tree) = Ret (Some node) /\
    page_url 3 {| name := VStr "Vannaya"; shard := VNull;
                  url := VStr "/catalog/dom/vannaya"; query := VStr "&sort=newly" |} =
      "https://catalog.wb.ru/catalog/" +:+ Js.ToString (shard node) +:+
      "/catalog?appType=1&curr=rub&dest=-1257786&locale=ru&page=" +:+ pretty 3%Z +:+
      "&sort=popular&spp=0&" +:+ merged_filters node (searchParams u) +:+
      "&sort=" +:+ sort_value (searchParams u) /\
    trace (scrapeWbPage scenario_env (fun _ => "") 3
             {| name := VStr "Vannaya"; shard := VNull;
                url := VStr "/catalog/dom/vannaya"; query := VStr "&sort=newly" |}
             7 initial_state).2 =
      (trace initial_state ++
         ELog "info" ("URL : " +:+
           page_url 3 {| name := VStr "Vannaya"; shard := VNull;
                         url := VStr "/catalog/dom/vannaya"; query := VStr "&sort=newly" |})
         :: EGet (page_url 3 {| name := VStr "Vannaya"; shard := VNull;
                                url := VStr "/catalog/dom/vannaya";
                                query := VStr "&sort=newly" |}) :: rest)%list.
Proof.
  apply (request_url_sort_twice scenario_env (fun _ => "") Url.parse
           "https://x/catalog/dom/vannaya?sort=newly" initial_state
           {| name := VStr "Vannaya"; shard := VNull;
              url := VStr "/catalog/dom/vannaya"; query := VStr "&sort=newly" |}
           (findCategoryByUrl scenario_env (fun _ => "") Url.parse
              "https://x/catalog/dom/vannaya?sort=newly" initial_state).2
           3 7 initial_state).
  vm_compute. reflexivity.
Defined.

(** ** The session flag *)

(** The state in which the [try] block of [parseCategory] starts: the user
    marked active, the clock read once, the results emptied. *)
Definition marked (userId : Z) (st : State) : State :=
  set_results [] (tick_clock
    (set_activeParsingUsers ({[userId]} ∪ activeParsingUsers st) st)).

(** The [try] block with its [catch] always returns. *)
Lemma parseCategory_try_catch_returns env J P url userId s :
  exists r s',
    try_catch (parseCategory_try env J P url userId) parseCategory_catch s = (Ret r, s').
Proof.
  unfold try_catch.
  destruct (parseCategory_try env J P url userId s) as [[r|e] s']; [by eauto|].
  unfold parseCategory_catch, log. unfold_M. by eauto.
Qed.

(** The state in which [parseCategory] leaves the process once its [try]
    block with its [catch] has returned in [s_try]. *)
Definition finished (env : Env) (T : Z -> string) (userId : Z) (st s_try : State) : State :=
  emit (ELog "info" ("Total parsing time: " +:+
                     T (clock env (clock_reads s_try) - clock env (clock_reads st)) +:+
                     " seconds"))
       (tick_clock (set_activeParsingUsers (activeParsingUsers s_try ∖ {[userId]}) s_try)).

Lemma parseCategory_free_run env J T P url userId st r s_try :
  userId ∉ activeParsingUsers st ->
  try_catch (parseCategory_try env J P url userId) parseCategory_catch (marked userId st)
    = (Ret r, s_try) ->
  parseCategory env J T P url userId st = (Ret r, finished env T userId st s_try).
Proof.
  intros Hfree Htry.
  unfold parseCategory. unfold mbind at 1, M_bind at 1, get_state at 1.
  rewrite bool_decide_eq_false_2 by done.
  unfold mbind at 1, M_bind at 1, modify at 1.
  unfold mbind at 1, M_bind at 1, Date_now at 1.
  unfold mbind at 1, M_bind at 1, modify at 1.
  unfold try_finally. fold (marked userId st). rewrite Htry.
  unfold parseCategory_finally, Date_now, log. unfold_M. reflexivity.
Qed.

(** A call for a user who is already active only writes a log line. *)
Lemma parseCategory_guarded env J T P url userId st :
  userId ∈ activeParsingUsers st ->
  parseCategory env J T P url userId st =
    (Ret (VBool false),
     emit (ELog "info" ("Parsing already in progress for user " +:+ pretty userId)) st).
Proof.
  intros Hin. unfold parseCategory, log. unfold_M.
  rewrite bool_decide_eq_true_2 by done. reflexivity.
Qed.



(** ** The value returned by a session *)

(** [report] returns the message sent when no row was collected and [true]
    when some were; a failing notification, file write or delivery report
    makes it throw. *)
Lemma report_value env category userId s :
  match report env category userId s with
  | (Ret v, _) =>
      results s = [] /\ (exists m, v = message_object m) \/
      results s <> [] /\ v = VBool true
  | (Throw _, _) => True
  end.
Proof.
  unfold report. unfold mbind at 1, M_bind at 1, get_state at 1.
  destruct (results s) as [|row rows] eqn:Hres; cbn [length Nat.eqb Nat.ltb Nat.leb].
  - unfold bot_sendMessage. unfold_M.
    destruct (telegram_reply env (telegram_calls s)) as [m|e]; [|done].
    left. split; [done|]. by exists m.
  - unfold mbind at 1, M_bind at 1.
    match goal with |- context [match ?m s with _ => _ end] => destruct (m s) as [[[]|e] s'] end;
      [|done]. unfold_M. right. split; [done|reflexivity].
Qed.

(** A world for a session that collects a row and cannot write its report:
    the catalog, a first page of one product, an answer of the enrichment
    service with one entry that has counts, and a second page without
    products; the Telegram client works and the file system refuses every
    call. *)
Definition failed_export_env : Env :=
  {| axios_reply := fun n =>
       match n with
       | 0%nat => Ret scenario_tree
       | 1%nat => Ret (VObj [("data", VObj [("products", VArr [VObj [("name", VStr "A")]])])])
       | 2%nat => Ret (VObj [("data", VObj [("keywords", VObj
                        [("A", VObj [("cluster",
                                      VObj [("product_count", VNum 5);
                                            ("freq_syn", VObj [("monthly", VNum 10)])])])])])])
       | _ => Ret (VObj [("data", VObj [("products", VArr [])])])
       end;
     telegram_reply := fun n => Ret (Z.of_nat n);
     fs_reply := fun _ => Throw (Error "EACCES: permission denied");
     clock := fun n => Z.of_nat n |}.

(** C2, as stated, fails: in [failed_export_env] the category [/catalog/dom]
    resolves, the page loop collects a row and ends, the run reaches the
    reporting step, the file cannot be written, and the outer handler
    returns [false]. *)
Lemma export_failure_returns_false :
  ~ forall env J T P url userId st c s1 s2 r st',
      userId ∉ activeParsingUsers st ->
      findCategoryByUrl env J P url (marked userId st) = (Ret (Some c), s1) ->
      parsePages env J MAX_PAGES 1 c userId s1 = (Ret tt, s2) ->
      results s2 <> [] ->
      parseCategory env J T P url userId st = (Ret r, st') ->
      r = VBool true.
Proof.
  intros H.
  pose (run := findCategoryByUrl failed_export_env (fun _ => "") Url.parse
                 "https://x/catalog/dom" (marked 7 initial_state)).
  pose (c := {| name := VStr "Dom"; shard := VNull; url := VStr "/catalog/dom";
                query := VStr "&sort=popular" |}).
  specialize (H failed_export_env (fun _ => "") (fun _ => "") Url.parse
                "https://x/catalog/dom" 7 initial_state c run.2
                (parsePages failed_export_env (fun _ => "") MAX_PAGES 1 c 7 run.2).2
                (VBool false)
                (parseCategory failed_export_env (fun _ => "") (fun _ => "") Url.parse
                   "https://x/catalog/dom" 7 initial_state).2).
  assert (Hr : VBool false = VBool true); [|discriminate Hr].
  apply H.
  - apply not_elem_of_empty.
  - vm_compute. reflexivity.
  - vm_compute. reflexivity.
  - vm_compute. discriminate.
  - vm_compute. reflexivity.
Qed.

(** C2, amended: a call always returns.  It returns [false] for a user who
    is already active, when the category is not found, and when an exception
    reaches the outer handler: thrown while resolving, thrown by the
    notification inside the error handler of the page loop, or thrown while
    reporting.  When the reporting step ends without throwing the call
    returns the value of that step, and that value is [true] whenever the
    result array holds a row when the step starts, in whichever state it
    starts.  The runs composed here are those of a session that runs
    alone. *)
Theorem parseCategory_return_value env J T P url userId st :
  (exists r st',
     parseCategory env J T P url userId st = (Ret r, st') /\
     if bool_decide (userId ∈ activeParsingUsers st) then r = VBool false else
     match findCategoryByUrl env J P url (marked userId st) with
     | (Throw _, _) | (Ret None, _) => r = VBool false
     | (Ret (Some c), s1) =>
         match parsePages env J MAX_PAGES 1 c userId s1 with
         | (Throw _, _) => r = VBool false
         | (Ret _, s2) =>
             match report env c userId s2 with
             | (Throw _, _) => r = VBool false
             | (Ret v, _) => r = v
             end
         end
     end) /\
  (forall category s v s',
     report env category userId s = (Ret v, s') ->
     results s <> [] -> v = VBool true).
Proof.
  split.
  - case_bool_decide as Hin.
    { eexists _, _. split; [by apply parseCategory_guarded|reflexivity]. }
    destruct (parseCategory_try_catch_returns env J P url userId (marked userId st))
      as (r & s_try & Htry).
    exists r, (finished env T userId st s_try).
    split; [by apply parseCategory_free_run|].
    revert Htry. unfold try_catch, parseCategory_try, parseCategory_catch, log.
    unfold mbind at 1, M_bind at 1.
    destruct (findCategoryByUrl env J P url (marked userId st)) as [[[c|]|e] s1].
    + unfold mbind at 1, M_bind at 1.
      destruct (parsePages env J MAX_PAGES 1 c userId s1) as [[[]|e] s2].
      * destruct (report env c userId s2) as [[v|e] s3].
        -- by intros [= <- _].
        -- unfold_M. by intros [= <- _].
      * unfold_M. by intros [= <- _].
    + unfold_M. by intros [= <- _].
    + unfold_M. by intros [= <- _].
  - intros category s v s' Hrun Hrows.
    pose proof (report_value env category userId s) as Hv. rewrite Hrun in Hv.
    destruct Hv as [[Hnil _]|[_ ->]]; done.
Qed.

Lemma parseCategory_return_value_witness :
  exists r st',
    parseCategory failed_export_env (fun _ => "") (fun _ => "") Url.parse
      "https://x/catalog/dom" 7 initial_state = (Ret r, st') /\
    r = VBool false.
Proof.
  destruct (proj1 (parseCategory_return_value failed_export_env (fun _ => "") (fun _ => "")
                     Url.parse "https://x/catalog/dom" 7 initial_state))
    as (r & st' & Hrun & Hr).
  exists r, st'. split; [exact Hrun|].
  vm_compute in Hr. exact Hr.
Defined.

(** On the path without rows the value returned is the one of
    [bot.sendMessage], the message sent, where every other [return] of
    [parseCategory] gives a boolean: in the scenario world the page request
    fails, no row is collected, and the call returns the message. *)
Lemma zero_rows_return_the_message :
  (parseCategory scenario_env (fun _ => "") (fun _ => "") Url.parse "https://x/catalog/dom" 7
     initial_state).1 = Ret (message_object 1).
Proof. vm_compute. reflexivity. Qed.

(** ** Flattening the category tree *)

Open Scope list_scope.

Lemma jsval_nested_ind (P : jsval -> Prop) :
  P VUndef -> P VNull -> (forall b, P (VBool b)) -> (forall n, P (VNum n)) ->
  (forall s, P (VStr s)) ->
  (forall items, Forall P items -> P (VArr items)) ->
  (forall fields, Forall (fun kv => P kv.2) fields -> P (VObj fields)) ->
  forall v, P v.
Proof.
  intros HU HN HB HZ HS HA HO. fix IH 1.
  intros [| |b|n|s|items|fields]; [exact HU|exact HN|apply HB|apply HZ|apply HS| |].
  - apply HA. induction items as [|x items IHitems]; constructor; [apply IH|exact IHitems].
  - apply HO. induction fields as [|[k x] fields IHfields]; constructor;
      [apply IH|exact IHfields].
Qed.

(** The nodes [processNode] descends into from a node: the elements of an
    array, and the elements of [childs] when it is an array. *)
Definition children (t : jsval) : list jsval :=
  match t with
  | VArr items => items
  | VObj fields =>
      match Js.assoc "childs" fields with
      | Some (VArr items) => items
      | _ => []
      end
  | _ => []
  end.

(** The entry a node contributes by itself. *)
Definition emitted (t : jsval) : option Category :=
  match t with
  | VObj fields =>
      if carries_name_and_url fields then Some (category_of_node fields) else None
  | _ => None
  end.

(** A position in the tree: the indices to follow from the root. *)
Definition path := list nat.

Fixpoint node_at (t : jsval) (p : path) : option jsval :=
  match p with
  | [] => Some t
  | i :: p => children t !! i ≫= fun c => node_at c p
  end.

(** Pre-order on positions: a node before the nodes below it, and the
    subtree of a child before the subtrees of the children after it. *)
Fixpoint path_lt (p q : path) : Prop :=
  match p, q with
  | [], [] => False
  | [], _ :: _ => True
  | _ :: _, [] => False
  | i :: p, j :: q => (i < j)%nat \/ i = j /\ path_lt p q
  end.

(** All the positions of a tree, listed in pre-order. *)
Fixpoint positions (t : jsval) : list path :=
  [] ::
  match t with
  | VArr items =>
      (fix each (i : nat) (l : list jsval) : list path :=
         match l with
         | [] => []
         | c :: rest => (map (cons i) (positions c) ++ each (S i) rest)%list
         end) O items
  | VObj fields =>
      (fix childs (fs : list (string * jsval)) : list path :=
         match fs with
         | [] => []
         | (k, v) :: rest =>
             if String.eqb k "childs" then
               match v with
               | VArr items =>
                   (fix each (i : nat) (l : list jsval) : list path :=
                      match l with
                      | [] => []
                      | c :: rest => (map (cons i) (positions c) ++ each (S i) rest)%list
                      end) O items
               | _ => []
               end
             else childs rest
         end) fields
  | _ => []
  end.

(** The positions below the children [l], the first of which has index [i]. *)
Fixpoint below (i : nat) (l : list jsval) : list path :=
  match l with
  | [] => []
  | c :: rest => (map (cons i) (positions c) ++ below (S i) rest)%list
  end.

Lemma positions_unfold t : positions t = [] :: below 0 (children t).
Proof.
  destruct t as [| |b|n|s|items|fields]; try reflexivity.
  simpl. f_equal. induction fields as [|[k v] rest IH]; simpl; [reflexivity|].
  destruct (String.eqb k "childs"); [|exact IH].
  destruct v as [| |b|n|s|items|fs]; reflexivity.
Qed.

Lemma processNode_unfold t categories :
  processNode t categories =
    fold_left (fun categories c => processNode c categories) (children t)
              (categories ++ option_list (emitted t)).
Proof.
  destruct t as [| |b|n|s|items|fields]; simpl; rewrite ?app_nil_r; try reflexivity.
  set (acc := if carries_name_and_url fields then _ else _).
  assert (Hacc : acc = categories ++
            option_list (if carries_name_and_url fields
                         then Some (category_of_node fields) else None)).
  { subst acc. destruct (carries_name_and_url fields); simpl; by rewrite ?app_nil_r. }
  rewrite <- Hacc. clearbody acc. clear Hacc.
  induction fields as [|[k v] rest IH]; simpl; [reflexivity|].
  destruct (String.eqb k "childs"); [|exact IH].
  destruct v as [| |b|n|s|items|fs]; reflexivity.
Qed.

Lemma assoc_Forall (P : jsval -> Prop) key fields v :
  Forall (fun kv => P kv.2) fields -> Js.assoc key fields = Some v -> P v.
Proof.
  induction 1 as [|[k x] rest Hx Hrest IH]; simpl; [done|].
  destruct (String.eqb k key); [by intros [= <-]|exact IH].
Qed.

(** The walk of an object is the walk of its [childs] array after its own
    entry. *)
Lemma processNode_object fields categories :
  processNode (VObj fields) categories =
    match Js.assoc "childs" fields with
    | Some (VArr items) =>
        processNode (VArr items) (categories ++ option_list (emitted (VObj fields)))
    | _ => (categories ++ option_list (emitted (VObj fields)))%list
    end.
Proof.
  rewrite processNode_unfold. cbn [children].
  destruct (Js.assoc "childs" fields) as [[| |b|n|s|items|fs]|]; reflexivity.
Qed.

(** What the walk of a node adds does not depend on what was pushed
    before. *)
Lemma processNode_app t :
  forall categories, processNode t categories = (categories ++ processNode t [])%list.
Proof.
  induction t as [| |b|n|s|items IH|fields IH] using jsval_nested_ind;
    intros categories; try (simpl; by rewrite app_nil_r).
  - rewrite (processNode_unfold (VArr items) categories), (processNode_unfold (VArr items) []).
    simpl. rewrite app_nil_r. revert categories.
    induction IH as [|c rest Hc Hrest IHrest]; intros categories; simpl.
    + by rewrite app_nil_r.
    + rewrite IHrest, (IHrest (processNode c [])), Hc, app_assoc. reflexivity.
  - rewrite (processNode_object fields categories), (processNode_object fields []).
    cbn [app]. generalize (option_list (emitted (VObj fields))). intros e.
    destruct (Js.assoc "childs" fields) as [v|] eqn:Hv; [|reflexivity].
    pose proof (assoc_Forall
                  (fun v => forall acc, processNode v acc = acc ++ processNode v [])
                  _ _ _ IH Hv) as Hch. simpl in Hch.
    destruct v as [| |b|n|s|items|fs]; try reflexivity.
    rewrite Hch, (Hch e), app_assoc. reflexivity.
Qed.

Lemma fold_processNode l :
  forall categories,
    fold_left (fun categories c => processNode c categories) l categories =
      (categories ++ concat (map (fun c => processNode c []) l))%list.
Proof.
  induction l as [|c rest IH]; intros categories; simpl.
  - by rewrite app_nil_r.
  - rewrite IH, processNode_app, app_assoc. reflexivity.
Qed.

(** The entries of a tree: its own, then those of its children in order. *)
Lemma processNode_children t :
  processNode t [] =
    (option_list (emitted t) ++ concat (map (fun c => processNode c []) (children t)))%list.
Proof. rewrite processNode_unfold, fold_processNode. reflexivity. Qed.

Lemma extractCategories_processNode catalog :
  extractCategories catalog = processNode catalog [].
Proof.
  destruct catalog as [| |b|n|s|items|fields]; reflexivity.
Qed.

(** The entry found at a position, if the position is one of the tree and
    its node carries [name] and [url]. *)
Definition entry_at (t : jsval) (p : path) : option Category :=
  node_at t p ≫= emitted.

Lemma omap_map_cons t i c ps :
  children t !! i = Some c ->
  omap (entry_at t) (map (cons i) ps) = omap (entry_at c) ps.
Proof.
  intros Hc. induction ps as [|p ps IH]; [reflexivity|].
  cbn [map omap list_omap]. cbn [omap] in IH. rewrite IH.
  unfold entry_at at 1. cbn [node_at]. rewrite Hc. reflexivity.
Qed.

Lemma omap_below t l :
  forall prefix,
    children t = (prefix ++ l)%list ->
    omap (entry_at t) (below (length prefix) l) =
      concat (map (fun c => omap (entry_at c) (positions c)) l).
Proof.
  induction l as [|c rest IH]; intros prefix Hch; simpl; [reflexivity|].
  rewrite omap_app. f_equal.
  - apply omap_map_cons. rewrite Hch.
    rewrite lookup_app_r by lia. rewrite Nat.sub_diag. reflexivity.
  - specialize (IH (prefix ++ [c])%list). rewrite length_app in IH. simpl in IH.
    rewrite Nat.add_1_r in IH. apply IH. by rewrite <- app_assoc.
Qed.

Lemma omap_positions t :
  omap (entry_at t) (positions t) =
    option_list (emitted t) ++
    concat (map (fun c => omap (entry_at c) (positions c)) (children t)).
Proof.
  rewrite positions_unfold.
  pose proof (omap_below t (children t) [] eq_refl) as Hb. cbn [length] in Hb.
  rewrite <- Hb.
  change (omap (entry_at t) ([] :: below 0 (children t)))
    with (match entry_at t [] with
          | Some y => y :: omap (entry_at t) (below 0 (children t))
          | None => omap (entry_at t) (below 0 (children t))
          end).
  change (entry_at t []) with (emitted t). by destruct (emitted t).
Qed.

Lemma processNode_positions t :
  processNode t [] = omap (entry_at t) (positions t).
Proof.
  induction t as [| |b|n|s|items IH|fields IH] using jsval_nested_ind; try reflexivity.
  - rewrite processNode_children, omap_positions. f_equal. f_equal. cbn [children].
    induction IH as [|c rest Hc Hrest IHrest]; [reflexivity|]. simpl. by rewrite Hc, IHrest.
  - rewrite processNode_children, omap_positions. f_equal. cbn [children].
    destruct (Js.assoc "childs" fields) as [v|] eqn:Hv; [|reflexivity].
    pose proof (assoc_Forall
                  (fun v => processNode v [] = omap (entry_at v) (positions v))
                  _ _ _ IH Hv) as Hch. simpl in Hch.
    destruct v as [| |b|n|s|items|fs]; try reflexivity.
    rewrite processNode_children, omap_positions in Hch. exact Hch.
Qed.

Lemma elem_of_below l :
  forall i p,
    p ∈ below i l <->
    exists j q c, p = (i + j)%nat :: q /\ l !! j = Some c /\ q ∈ positions c.
Proof.
  induction l as [|c rest IH]; intros i p; simpl.
  - split; [by intros ?%elem_of_nil|]. by intros (j & q & c & _ & Hl & _).
  - rewrite elem_of_app, list_elem_of_fmap, IH. split.
    + intros [(q & -> & Hq)|(j & q & c' & -> & Hl & Hq)].
      * exists 0%nat, q, c. by rewrite Nat.add_0_r.
      * exists (S j), q, c'. split; [f_equal; lia|done].
    + intros ([|j] & q & c' & -> & Hl & Hq); simpl in Hl.
      * left. injection Hl as <-. exists q. by rewrite Nat.add_0_r.
      * right. exists j, q, c'. split; [f_equal; lia|done].
Qed.

(** The list [positions] holds exactly the positions of the tree. *)
Lemma positions_complete p :
  forall t, p ∈ positions t <-> is_Some (node_at t p).
Proof.
  induction p as [|i q IH]; intros t; rewrite positions_unfold.
  - split; [by eexists|]. intros _. by left.
  - rewrite elem_of_cons, elem_of_below. simpl. split.
    + intros [?|(j & q' & c & [= -> ->] & Hl & Hq)]; [done|].
      rewrite Hl. simpl. by apply IH.
    + intros [x Hx]. right. destruct (children t !! i) as [c|] eqn:Hl; [|done].
      simpl in Hx. exists i, q, c. split; [done|]. split; [done|]. apply IH. by eexists.
Qed.

Lemma path_lt_cons i p q : path_lt p q -> path_lt (i :: p) (i :: q).
Proof. intros H. simpl. right. done. Qed.

Lemma map_cons_sorted i ps :
  StronglySorted path_lt ps -> StronglySorted path_lt (map (cons i) ps).
Proof.
  induction 1 as [|p ps Hps IH Hp]; simpl; constructor; [exact IH|].
  apply Forall_fmap. eapply Forall_impl; [exact Hp|]. intros q Hq. by apply path_lt_cons.
Qed.

Lemma map_cons_sorted_inv i ps :
  StronglySorted path_lt (map (cons i) ps) -> StronglySorted path_lt ps.
Proof.
  induction ps as [|p ps IH]; simpl; intros H; [constructor|].
  apply StronglySorted_cons in H as [Hp Hps]. constructor; [by apply IH|].
  rewrite Forall_fmap in Hp. eapply Forall_impl; [exact Hp|].
  intros q Hq. simpl in Hq. destruct Hq as [Hq|[_ Hq]]; [lia|exact Hq].
Qed.

Lemma below_sorted_inv l :
  forall i, StronglySorted path_lt (below i l) ->
            Forall (fun c => StronglySorted path_lt (positions c)) l.
Proof.
  induction l as [|c rest IH]; intros i Hs; [constructor|].
  simpl in Hs. apply StronglySorted_app in Hs as (_ & Hc & Hrest).
  constructor; [by eapply map_cons_sorted_inv|by eapply IH].
Qed.

Lemma below_sorted l :
  Forall (fun c => StronglySorted path_lt (positions c)) l ->
  forall i, StronglySorted path_lt (below i l).
Proof.
  induction 1 as [|c rest Hc Hrest IH]; intros i; simpl; [constructor|].
  apply StronglySorted_app. split; [|split].
  - intros p q Hp Hq. apply list_elem_of_fmap in Hp as (p' & -> & _).
    apply elem_of_below in Hq as (j & q' & c' & -> & _ & _). simpl. left. lia.
  - by apply map_cons_sorted.
  - apply IH.
Qed.

(** The list [positions] is in pre-order, hence without repetition. *)
Lemma positions_sorted t : StronglySorted path_lt (positions t).
Proof.
  induction t as [| |b|n|s|items IH|fields IH] using jsval_nested_ind;
    try (by repeat constructor).
  - rewrite positions_unfold. constructor; [by apply below_sorted|].
    apply Forall_forall. intros p Hp. apply elem_of_below in Hp as (j & q & c & -> & _). done.
  - rewrite positions_unfold. constructor.
    + apply below_sorted. cbn [children].
      destruct (Js.assoc "childs" fields) as [v|] eqn:Hv; [|constructor].
      pose proof (assoc_Forall (fun v => StronglySorted path_lt (positions v))
                    _ _ _ IH Hv) as Hch. simpl in Hch.
      destruct v as [| |b|n|s|items|fs]; try constructor.
      rewrite positions_unfold in Hch. apply StronglySorted_cons in Hch as [_ Hch].
      cbn [children] in Hch. by eapply below_sorted_inv.
    + apply Forall_forall. intros p Hp.
      apply elem_of_below in Hp as (j & q & c & -> & _). done.
Qed.

Lemma path_lt_irrefl p : ~ path_lt p p.
Proof.
  induction p as [|i p IH]; simpl; [by intros []|]. intros [?|[_ ?]]; [lia|by apply IH].
Qed.

(** C8: the flattening is defined on every tree, and its output is read off
    the list of all positions of the tree (the root, the elements of arrays,
    the elements of [childs] arrays, at any depth): this list holds every
    position, is in pre-order (a node before its children, siblings in
    input order) and so holds each position once, and the output has, in
    this order, one entry for each position whose node carries [name] and
    [url] and none for the others, whose children are positions all the
    same. *)
Theorem flattening_preorder_exactly_once catalog :
  extractCategories catalog = omap (entry_at catalog) (positions catalog) /\
  (forall p, p ∈ positions catalog <-> is_Some (node_at catalog p)) /\
  StronglySorted path_lt (positions catalog) /\
  NoDup (positions catalog) /\
  (forall p fields,
     node_at catalog p = Some (VObj fields) ->
     entry_at catalog p =
       if carries_name_and_url fields then Some (category_of_node fields) else None).
Proof.
  split; [|split; [|split; [|split]]].
  - rewrite extractCategories_processNode. apply processNode_positions.
  - intros p. apply positions_complete.
  - apply positions_sorted.
  - pose proof (positions_sorted catalog) as Hs.
    induction Hs as [|p ps Hps IH Hp]; constructor; [|exact IH].
    intros Hin. rewrite Forall_forall in Hp. by apply (path_lt_irrefl p), Hp.
  - intros p fields Hp. unfold entry_at. rewrite Hp. reflexivity.
Qed.

(** ** Filtering the enrichment response *)

(** The keyword mapping of a response body [{data: {keywords: {...}}}]. *)
Definition keywords_of (body : jsval) : option (list (string * jsval)) :=
  match body with
  | VObj b =>
      match Js.assoc "data" b with
      | Some (VObj d) =>
          match Js.assoc "keywords" d with
          | Some (VObj kws) => Some kws
          | _ => None
          end
      | _ => None
      end
  | _ => None
  end.

(** The object [queryEvirmaApi] builds around the entries it keeps. *)
Definition filteredData (kept : list (string * jsval)) : jsval :=
  VObj [("data", VObj [("keywords", VObj kept)])].

(** [data.cluster !== null] on an entry that is an object. *)
Definition cluster_not_null (entry : jsval) : bool :=
  match entry with
  | VObj e => Js.not_null (default VUndef (Js.assoc "cluster" e))
  | _ => true
  end.

(** A count of the enrichment service: absent, [null], or a number that is
    not negative. *)
Definition is_count (v : jsval) : bool :=
  match v with
  | VUndef | VNull => true
  | VNum n => (0 <=? n)%Z
  | _ => false
  end.

(** An entry of the shape [{cluster: {product_count, freq_syn: {monthly}} |
    null}] whose counts are counts. *)
Definition well_shaped_entry (entry : jsval) : bool :=
  match entry with
  | VObj e =>
      match Js.assoc "cluster" e with
      | None | Some VNull => true
      | Some (VObj cluster) =>
          is_count (default VUndef (Js.assoc "product_count" cluster)) &&
          match Js.assoc "freq_syn" cluster with
          | None | Some VNull => true
          | Some (VObj freq_syn) => is_count (default VUndef (Js.assoc "monthly" freq_syn))
          | _ => false
          end
      | _ => false
      end
  | _ => false
  end.

Definition positive (v : jsval) : bool :=
  match v with
  | VNum n => (0 <? n)%Z
  | _ => false
  end.

(** The row of an entry in the words of the specification: none for an
    absent or null cluster, none unless [product_count] and the monthly
    frequency are positive. *)
Definition spec_row (kv : string * jsval) : option Row :=
  match kv.2 with
  | VObj e =>
      match Js.assoc "cluster" e with
      | Some (VObj cluster) =>
          let product_count := default VUndef (Js.assoc "product_count" cluster) in
          let monthly :=
            match Js.assoc "freq_syn" cluster with
            | Some (VObj freq_syn) => default VUndef (Js.assoc "monthly" freq_syn)
            | _ => VUndef
            end in
          if positive product_count && positive monthly
          then Some {| term := kv.1; productCount := product_count;
                       monthlyFrequency := monthly |}
          else None
      | _ => None
      end
  | _ => None
  end.

Lemma set_fresh key v fields :
  key ∉ fields.*1 -> Js.set key v fields = fields ++ [(key, v)].
Proof.
  induction fields as [|[k w] rest IH]; simpl; [done|].
  intros Hk. apply not_elem_of_cons in Hk as [Hne Hk].
  destruct (String.eqb k key) eqn:E.
  - apply String.eqb_eq in E. congruence.
  - by rewrite IH.
Qed.

(** [Object.fromEntries] of entries with distinct keys changes nothing. *)
Lemma fromEntries_NoDup (l : list (string * jsval)) : NoDup l.*1 -> Js.fromEntries l = l.
Proof.
  unfold Js.fromEntries.
  assert (H : forall acc, NoDup (acc ++ l).*1 ->
                fold_left (fun o kv => Js.set kv.1 kv.2 o) l acc = acc ++ l).
  { induction l as [|[k v] rest IH]; intros acc Hnd; simpl.
    - by rewrite app_nil_r.
    - rewrite set_fresh.
      + rewrite IH; rewrite <- app_assoc; [reflexivity|exact Hnd].
      + rewrite fmap_app in Hnd. apply NoDup_app in Hnd as (_ & Hd & _).
        intros Hin. apply (Hd k Hin). simpl. by left. }
  intros Hnd. apply (H []). exact Hnd.
Qed.

Lemma filterO_cluster (p : string * jsval -> outcome bool) (kws : list (string * jsval)) :
  (forall kv, p kv = (cluster ← Js.prop kv.2 "cluster"; Ret (Js.not_null cluster))) ->
  Forall (fun kv : string * jsval => well_shaped_entry kv.2 = true) kws ->
  filterO p kws = Ret (filter (fun kv : string * jsval => cluster_not_null kv.2 = true) kws).
Proof.
  intros Hp. induction 1 as [|[k v] rest Hv Hrest IH]; [reflexivity|].
  cbn [filterO]. rewrite IH, Hp. rewrite filter_cons. simpl in *.
  destruct v as [| |b|n|s|items|e]; try discriminate Hv. simpl.
  destruct (Js.not_null (default VUndef (Js.assoc "cluster" e))) eqn:E.
  - rewrite decide_True by done. reflexivity.
  - rewrite decide_False by (by intros ?). reflexivity.
Qed.

Lemma parseEvirmaEntry_spec k v :
  well_shaped_entry v = true -> parseEvirmaEntry k v = Ret (spec_row (k, v)).
Proof.
  unfold well_shaped_entry, parseEvirmaEntry, spec_row. cbn [fst snd].
  destruct v as [| |b|n|s|items|e]; try discriminate. simpl.
  destruct (Js.assoc "cluster" e) as [[| |b|n|s|items|cluster]|]; try discriminate;
    try reflexivity.
  simpl.
  destruct (default VUndef (Js.assoc "product_count" cluster)) as [| |b|n|s|items|o];
    try discriminate; try reflexivity.
  simpl. intros Hc.
  destruct (Z.eqb_spec n 0) as [->|Hn]; [reflexivity|]. simpl.
  assert (Hpos : (0 <? n)%Z = true) by lia. rewrite Hpos. simpl.
  assert (Hn0 : (0 <=? n)%Z = true) by lia. rewrite Hn0 in Hc. simpl in Hc.
  destruct (Js.assoc "freq_syn" cluster) as [[| |b|m|s|items|freq_syn]|]; try discriminate;
    try reflexivity.
  simpl.
  destruct (default VUndef (Js.assoc "monthly" freq_syn)) as [| |b|m|s|items|o];
    try discriminate; try reflexivity.
  simpl in *. destruct (Z.eqb_spec m 0) as [->|Hm]; [reflexivity|]. simpl.
  assert (Hposm : (0 <? m)%Z = true) by lia. rewrite Hposm. reflexivity.
Qed.

Lemma parseEvirmaEntries_spec (kws : list (string * jsval)) :
  Forall (fun kv : string * jsval => well_shaped_entry kv.2 = true) kws ->
  forall parsedData,
    parseEvirmaEntries kws parsedData = Ret (parsedData ++ omap spec_row kws).
Proof.
  induction 1 as [|[k v] rest Hv Hrest IH]; intros parsedData.
  - simpl. by rewrite app_nil_r.
  - cbn [parseEvirmaEntries]. rewrite (parseEvirmaEntry_spec k v Hv).
    cbn [mbind outcome_bind]. rewrite IH.
    change (omap spec_row ((k, v) :: rest))
      with (match spec_row (k, v) with
            | Some y => y :: omap spec_row rest
            | None => omap spec_row rest
            end).
    destruct (spec_row (k, v)); [by rewrite <- app_assoc|reflexivity].
Qed.

(** An entry without a cluster gives no row, so dropping such entries first
    does not change the rows. *)
Lemma omap_spec_row_kept (kws : list (string * jsval)) :
  omap spec_row (filter (fun kv : string * jsval => cluster_not_null kv.2 = true) kws) = omap spec_row kws.
Proof.
  induction kws as [|[k v] rest IH]; [reflexivity|].
  rewrite filter_cons.
  change (omap spec_row ((k, v) :: rest))
    with (match spec_row (k, v) with
          | Some y => y :: omap spec_row rest
          | None => omap spec_row rest
          end).
  destruct (decide (cluster_not_null (k, v).2 = true)) as [Hc|Hc].
  - change (omap spec_row ((k, v) :: filter (fun kv : string * jsval => cluster_not_null kv.2 = true) rest))
      with (match spec_row (k, v) with
            | Some y => y :: omap spec_row (filter (fun kv : string * jsval => cluster_not_null kv.2 = true) rest)
            | None => omap spec_row (filter (fun kv : string * jsval => cluster_not_null kv.2 = true) rest)
            end).
    by rewrite IH.
  - rewrite IH. simpl in Hc. unfold spec_row. cbn [fst snd].
    destruct v as [| |b|n|s|items|e]; try reflexivity. simpl in Hc.
    destruct (Js.assoc "cluster" e) as [[| |b|n|s|items|cluster]|]; try reflexivity.
    simpl in Hc. done.
Qed.

(** The response of the scenario of the specification. *)
Definition scenario_keywords : list (string * jsval) :=
  [("a", VObj [("cluster", VObj [("product_count", VNum 5);
                                 ("freq_syn", VObj [("monthly", VNum 10)])])]);
   ("b", VObj [("cluster", VNull)])].

(** What the two methods of the client do with a well-shaped answer. *)
Lemma enrichment_rows_general (body : jsval) (kws : list (string * jsval)) :
  keywords_of body = Some kws ->
  NoDup kws.*1 ->
  Forall (fun kv : string * jsval => well_shaped_entry kv.2 = true) kws ->
  let kept := filter (fun kv : string * jsval => cluster_not_null kv.2 = true) kws in
  filterEvirmaData body =
    Ret (if (length kept =? 0)%nat then VNull else filteredData kept) /\
  parseEvirmaResponse (filteredData kept) = Ret (omap spec_row kws).
Proof.
  - intros Hbody Hnd Hwf kept.
    assert (Hkept_nd : NoDup kept.*1).
    { subst kept. clear -Hnd. induction kws as [|[k v] rest IH]; [constructor|].
      simpl in Hnd. apply NoDup_cons in Hnd as [Hk Hnd]. rewrite filter_cons.
      destruct (decide _); [|by apply IH]. simpl. apply NoDup_cons. split; [|by apply IH].
      intros Hin. apply Hk. apply list_elem_of_fmap in Hin as ([k' v'] & -> & Hin).
      apply list_elem_of_filter in Hin as [_ Hin]. apply list_elem_of_fmap. by exists (k', v'). }
    assert (Hkept_wf : Forall (fun kv : string * jsval => well_shaped_entry kv.2 = true) kept).
    { subst kept. apply Forall_forall. intros kv Hin.
      apply list_elem_of_filter in Hin as [_ Hin]. rewrite Forall_forall in Hwf. by apply Hwf. }
    split.
    + unfold keywords_of in Hbody.
      destruct body as [| |b|n|s|items|bfields]; try discriminate Hbody.
      destruct (Js.assoc "data" bfields) as [[| |b|n|s|items|d]|] eqn:Hd;
        try discriminate Hbody.
      destruct (Js.assoc "keywords" d) as [[| |b|n|s|items|kws']|] eqn:Hk;
        try discriminate Hbody.
      injection Hbody as ->.
      unfold filterEvirmaData. simpl. rewrite Hd. simpl. rewrite Hk. simpl.
      match goal with
      | |- context [filterO ?p kws] => rewrite (filterO_cluster p kws (fun _ => eq_refl) Hwf)
      end.
      fold kept. unfold mbind, outcome_bind. rewrite (fromEntries_NoDup kept Hkept_nd). reflexivity.
    + unfold parseEvirmaResponse, filteredData. simpl.
      rewrite (parseEvirmaEntries_spec kept Hkept_wf []). simpl.
      subst kept. by rewrite omap_spec_row_kept.
Qed.

(** On a mapping whose counts are counts the tests of the code are the tests
    for positive counts: for a keyword mapping with distinct keywords, each
    with a cluster that is absent, [null], or an object whose counts are
    absent, [null] or numbers that are not negative, the rows are those of
    the entries that have a cluster, a positive [product_count] and a
    positive monthly frequency. *)
Lemma enrichment_rows_of_counts (body : jsval) (kws : list (string * jsval)) :
  keywords_of body = Some kws ->
  NoDup kws.*1 ->
  Forall (fun kv : string * jsval => well_shaped_entry kv.2 = true) kws ->
  let kept := filter (fun kv : string * jsval => cluster_not_null kv.2 = true) kws in
  filterEvirmaData body =
    Ret (if (length kept =? 0)%nat then VNull else filteredData kept) /\
  parseEvirmaResponse (filteredData kept) = Ret (omap spec_row kws).
Proof. apply enrichment_rows_general. Qed.

(** *** The tests the code makes *)

(** A value whose properties cannot be read. *)
Definition nullish (v : jsval) : bool :=
  match v with
  | VUndef | VNull => true
  | _ => false
  end.

(** The property [key] of an object, [undefined] for any other value. *)
Definition field (key : string) (v : jsval) : jsval :=
  match v with
  | VObj fields => default VUndef (Js.assoc key fields)
  | _ => VUndef
  end.

(** The row of an entry by the tests of the amended statement: none unless
    the cluster, its [product_count] and the monthly frequency are truthy. *)
Definition truthy_row (kv : string * jsval) : option Row :=
  let cluster := field "cluster" kv.2 in
  let product_count := field "product_count" cluster in
  let monthly := field "monthly" (field "freq_syn" cluster) in
  if Js.truthy cluster && Js.truthy product_count && Js.truthy monthly
  then Some {| term := kv.1; productCount := product_count; monthlyFrequency := monthly |}
  else None.

Lemma prop_field (v : jsval) (key : string) :
  nullish v = false -> String.eqb key "length" = false -> Js.prop v key = Ret (field key v).
Proof. destruct v; try discriminate; intros _ Hk; simpl; rewrite ?Hk; reflexivity. Qed.

Lemma truthy_not_nullish (v : jsval) : Js.truthy v = true -> nullish v = false.
Proof. by destruct v. Qed.

Lemma parseEvirmaEntry_truthy k v :
  nullish v = false -> parseEvirmaEntry k v = Ret (truthy_row (k, v)).
Proof.
  intros Hv. unfold parseEvirmaEntry, truthy_row. cbn [fst snd].
  rewrite (prop_field v "cluster" Hv eq_refl). cbn [mbind outcome_bind].
  destruct (Js.truthy (field "cluster" v)) eqn:Hc; [|reflexivity]. cbn [negb andb].
  rewrite (prop_field _ "product_count" (truthy_not_nullish _ Hc) eq_refl).
  cbn [mbind outcome_bind].
  destruct (Js.truthy (field "product_count" (field "cluster" v))); [|reflexivity].
  cbn [negb andb].
  rewrite (prop_field _ "freq_syn" (truthy_not_nullish _ Hc) eq_refl).
  cbn [mbind outcome_bind].
  assert (Hm : Js.prop_opt (field "freq_syn" (field "cluster" v)) "monthly" =
               Ret (field "monthly" (field "freq_syn" (field "cluster" v)))).
  { destruct (field "freq_syn" (field "cluster" v)); reflexivity. }
  rewrite Hm. cbn [mbind outcome_bind].
  destruct (Js.truthy (field "monthly" (field "freq_syn" (field "cluster" v)))); reflexivity.
Qed.

Lemma parseEvirmaEntries_truthy (kws : list (string * jsval)) :
  Forall (fun kv : string * jsval => nullish kv.2 = false) kws ->
  forall parsedData,
    parseEvirmaEntries kws parsedData = Ret (parsedData ++ omap truthy_row kws).
Proof.
  induction 1 as [|[k v] rest Hv Hrest IH]; intros parsedData.
  - simpl. by rewrite app_nil_r.
  - cbn [parseEvirmaEntries]. rewrite (parseEvirmaEntry_truthy k v Hv).
    cbn [mbind outcome_bind]. rewrite IH.
    change (omap truthy_row ((k, v) :: rest))
      with (match truthy_row (k, v) with
            | Some y => y :: omap truthy_row rest
            | None => omap truthy_row rest
            end).
    destruct (truthy_row (k, v)); [by rewrite <- app_assoc|reflexivity].
Qed.

Lemma filterO_cluster_kept (p : string * jsval -> outcome bool) (kws : list (string * jsval)) :
  (forall kv, p kv = (cluster ← Js.prop kv.2 "cluster"; Ret (Js.not_null cluster))) ->
  Forall (fun kv : string * jsval => nullish kv.2 = false) kws ->
  filterO p kws = Ret (filter (fun kv : string * jsval => cluster_not_null kv.2 = true) kws).
Proof.
  intros Hp. induction 1 as [|[k v] rest Hv Hrest IH]; [reflexivity|].
  cbn [filterO]. rewrite IH, Hp. rewrite filter_cons. cbn [fst snd] in *.
  rewrite (prop_field v "cluster" Hv eq_refl). cbn [mbind outcome_bind].
  assert (Hc : cluster_not_null v = Js.not_null (field "cluster" v)) by by destruct v.
  rewrite Hc. destruct (Js.not_null (field "cluster" v)).
  - rewrite decide_True by done. reflexivity.
  - rewrite decide_False by (by intros ?). reflexivity.
Qed.

Lemma filterO_cluster_throws (p : string * jsval -> outcome bool) (kws : list (string * jsval)) :
  (forall kv, p kv = (cluster ← Js.prop kv.2 "cluster"; Ret (Js.not_null cluster))) ->
  Exists (fun kv : string * jsval => nullish kv.2 = true) kws ->
  exists e, filterO p kws = Throw e.
Proof.
  intros Hp. induction 1 as [[k v] rest Hv|[k v] rest Hrest [e IH]].
  - cbn [filterO]. rewrite Hp. cbn [fst snd] in *.
    destruct v; try discriminate Hv; simpl; destruct (filterO p rest); by eauto.
  - cbn [filterO]. rewrite IH, Hp. cbn [fst snd].
    destruct (Js.prop v "cluster"); simpl; by eauto.
Qed.

(** An entry whose cluster is [null] gives no row, so dropping such entries
    first does not change the rows. *)
Lemma omap_truthy_row_kept (kws : list (string * jsval)) :
  omap truthy_row (filter (fun kv : string * jsval => cluster_not_null kv.2 = true) kws) =
  omap truthy_row kws.
Proof.
  induction kws as [|[k v] rest IH]; [reflexivity|].
  rewrite filter_cons.
  change (omap truthy_row ((k, v) :: rest))
    with (match truthy_row (k, v) with
          | Some y => y :: omap truthy_row rest
          | None => omap truthy_row rest
          end).
  destruct (decide (cluster_not_null (k, v).2 = true)) as [Hc|Hc].
  - change (omap truthy_row ((k, v) :: filter (fun kv : string * jsval => cluster_not_null kv.2 = true) rest))
      with (match truthy_row (k, v) with
            | Some y => y :: omap truthy_row (filter (fun kv : string * jsval => cluster_not_null kv.2 = true) rest)
            | None => omap truthy_row (filter (fun kv : string * jsval => cluster_not_null kv.2 = true) rest)
            end).
    by rewrite IH.
  - rewrite IH. simpl in Hc. unfold truthy_row. cbn [fst snd].
    destruct v as [| |b|n|s|items|e]; try reflexivity. simpl in Hc. simpl.
    destruct (default VUndef (Js.assoc "cluster" e)); try reflexivity; simpl in Hc; done.
Qed.

Lemma keywords_of_body (body : jsval) (kws : list (string * jsval)) :
  keywords_of body = Some kws ->
  filterEvirmaData body =
    (kept ← filterO (fun kv : string * jsval =>
                       cluster ← Js.prop kv.2 "cluster"; Ret (Js.not_null cluster)) kws;
     Ret (if (length (Js.fromEntries kept) =? 0)%nat then VNull
          else filteredData (Js.fromEntries kept))).
Proof.
  intros Hbody. unfold keywords_of in Hbody.
  destruct body as [| |b|n|s|items|bfields]; try discriminate Hbody.
  destruct (Js.assoc "data" bfields) as [[| |b|n|s|items|d]|] eqn:Hd;
    try discriminate Hbody.
  destruct (Js.assoc "keywords" d) as [[| |b|n|s|items|kws']|] eqn:Hk;
    try discriminate Hbody.
  injection Hbody as ->.
  unfold filterEvirmaData. simpl. rewrite Hd. simpl. rewrite Hk. reflexivity.
Qed.

Lemma NoDup_kept (kws : list (string * jsval)) :
  NoDup kws.*1 ->
  NoDup (filter (fun kv : string * jsval => cluster_not_null kv.2 = true) kws).*1.
Proof.
  intros Hnd. induction kws as [|[k v] rest IH]; [constructor|].
  simpl in Hnd. apply NoDup_cons in Hnd as [Hk Hnd]. rewrite filter_cons.
  destruct (decide _); [|by apply IH]. simpl. apply NoDup_cons. split; [|by apply IH].
  intros Hin. apply Hk. apply list_elem_of_fmap in Hin as ([k' v'] & -> & Hin).
  apply list_elem_of_filter in Hin as [_ Hin]. apply list_elem_of_fmap. by exists (k', v').
Qed.

(** C4, as stated, fails: the code tests that the counts are truthy, not
    that they are positive, and an entry with the [product_count] [-1] gives
    a row. *)
Lemma negative_count_yields_row :
  ~ forall (body : jsval) (kws : list (string * jsval)),
      keywords_of body = Some kws ->
      NoDup kws.*1 ->
      let kept := filter (fun kv : string * jsval => cluster_not_null kv.2 = true) kws in
      filterEvirmaData body =
        Ret (if (length kept =? 0)%nat then VNull else filteredData kept) /\
      parseEvirmaResponse (filteredData kept) = Ret (omap spec_row kws).
Proof.
  intros H.
  pose (kws := [("a", VObj [("cluster", VObj [("product_count", VNum (-1));
                                              ("freq_syn", VObj [("monthly", VNum 10)])])])]).
  destruct (H (filteredData kws) kws eq_refl) as [_ Hrows].
  - apply NoDup_singleton.
  - vm_compute in Hrows. discriminate Hrows.
Qed.

(** C4, amended: for a keyword mapping with distinct keywords none of whose
    values is [null], [queryEvirmaApi] keeps the entries whose cluster is
    not [null] (and answers [null] when none is kept), and
    [parseEvirmaResponse] turns what is kept into the rows of the entries
    whose cluster, [product_count] and monthly frequency are truthy, in the
    order of the response, each row made of the keyword and the two values:
    an absent, [null], zero or empty value gives no row, a negative number
    or a non-empty string gives one.  A mapping with a [null] value makes
    the filtering throw.  The scenario response gives the single row
    [a, 5, 10]. *)
Theorem enrichment_rows_by_truthiness :
  (forall (body : jsval) (kws : list (string * jsval)),
     keywords_of body = Some kws ->
     NoDup kws.*1 ->
     (Forall (fun kv : string * jsval => nullish kv.2 = false) kws ->
      let kept := filter (fun kv : string * jsval => cluster_not_null kv.2 = true) kws in
      filterEvirmaData body =
        Ret (if (length kept =? 0)%nat then VNull else filteredData kept) /\
      parseEvirmaResponse (filteredData kept) = Ret (omap truthy_row kws)) /\
     (Exists (fun kv : string * jsval => nullish kv.2 = true) kws ->
      exists e, filterEvirmaData body = Throw e)) /\
  (exists kept,
     filterEvirmaData (filteredData scenario_keywords) = Ret (filteredData kept) /\
     parseEvirmaResponse (filteredData kept) =
       Ret [{| term := "a"; productCount := VNum 5; monthlyFrequency := VNum 10 |}]).
Proof.
  split.
  - intros body kws Hbody Hnd. rewrite (keywords_of_body body kws Hbody). split.
    + intros Hv kept.
      assert (Hkept_v : Forall (fun kv : string * jsval => nullish kv.2 = false) kept).
      { subst kept. apply Forall_forall. intros kv Hin.
        apply list_elem_of_filter in Hin as [_ Hin]. rewrite Forall_forall in Hv. by apply Hv. }
      split.
      * rewrite (filterO_cluster_kept _ kws (fun _ => eq_refl) Hv). fold kept.
        cbn [mbind outcome_bind]. rewrite (fromEntries_NoDup kept (NoDup_kept kws Hnd)).
        reflexivity.
      * unfold parseEvirmaResponse, filteredData. simpl.
        rewrite (parseEvirmaEntries_truthy kept Hkept_v []). simpl.
        subst kept. by rewrite omap_truthy_row_kept.
    + intros Hnull.
      destruct (filterO_cluster_throws _ kws (fun _ => eq_refl) Hnull) as [e He].
      exists e. rewrite He. reflexivity.
  - eexists. split; vm_compute; reflexivity.
Qed.

(** An entry with a negative [product_count] and an entry whose counts are
    written as strings each give a row; an entry with a zero count gives
    none. *)
Lemma enrichment_rows_by_truthiness_witness :
  let kws := [("a", VObj [("cluster", VObj [("product_count", VNum (-1));
                                            ("freq_syn", VObj [("monthly", VNum 10)])])]);
              ("b", VObj [("cluster", VNull)]);
              ("c", VObj [("cluster", VObj [("product_count", VStr "5");
                                            ("freq_syn", VObj [("monthly", VStr "7")])])]);
              ("d", VObj [("cluster", VObj [("product_count", VNum 0);
                                            ("freq_syn", VObj [("monthly", VNum 3)])])])] in
  let kept := filter (fun kv : string * jsval => cluster_not_null kv.2 = true) kws in
  filterEvirmaData (filteredData kws) =
    Ret (if (length kept =? 0)%nat then VNull else filteredData kept) /\
  parseEvirmaResponse (filteredData kept) =
    Ret [{| term := "a"; productCount := VNum (-1); monthlyFrequency := VNum 10 |};
         {| term := "c"; productCount := VStr "5"; monthlyFrequency := VStr "7" |}].
Proof.
  intros kws.
  apply (proj1 (proj1 enrichment_rows_by_truthiness (filteredData kws) kws eq_refl
                  ltac:(vm_compute; repeat constructor;
                        rewrite ?elem_of_cons, ?elem_of_nil; intuition discriminate))).
  repeat constructor.
Defined.

(** ** The sentinel of the enrichment client *)

Definition EVIRMA_URL : string := "https://evirma.ru/api/v1/keyword/list".



Definition dom_category : Category :=
  {| name := VStr "Dom"; shard := VStr "dom"; url := VStr "/catalog/dom";
     query := VStr "cat=1&sort=popular" |}.





(** ** The retry policy of the scraper *)

(** The requests and the waits of a trace, in order. *)
Fixpoint timeline (t : list Event) : list Event :=
  match t with
  | [] => []
  | e :: rest =>
      match e with
      | EGet _ | ESleep _ => e :: timeline rest
      | _ => timeline rest
      end
  end.

Lemma timeline_app t1 t2 : timeline (t1 ++ t2) = timeline t1 ++ timeline t2.
Proof.
  induction t1 as [|e t1 IH]; [reflexivity|].
  destruct e; simpl; rewrite IH; reflexivity.
Qed.

(** [k] rounds of a request answered 429 followed by the wait. *)
Definition rate_limited_rounds (url : string) (k : nat) : list Event :=
  concat (replicate k [EGet url; ESleep RETRY_WAIT_TIME]).

(** The next [k] requests are answered with status 429. *)
Definition next_429 (env : Env) (s : State) (k : nat) : Prop :=
  forall i, (i < k)%nat ->
    exists e, axios_reply env (axios_calls s + i) = Throw e /\ is_429 e = true.

(** The next [n] calls of the Telegram client succeed. *)
Definition telegram_delivers (env : Env) (s : State) (n : nat) : Prop :=
  forall j, (j < n)%nat -> exists m, telegram_reply env (telegram_calls s + j) = Ret m.

Section Retry.

Variable env : Env.
Variable JSON_stringify : jsval -> string.
Variables (url : string) (page userId : Z).

Local Abbreviation attempts := (scrapeWbPage_attempts env JSON_stringify url page userId).

(** One round: the request is answered 429, the user is told, the call
    waits [RETRY_WAIT_TIME] and goes round the loop again. *)
Lemma attempt_429 remaining s :
  next_429 env s 1 -> telegram_delivers env s 2 ->
  exists s',
    attempts (S remaining) s = attempts remaining s' /\
    axios_calls s' = S (axios_calls s) /\
    telegram_calls s' = S (S (telegram_calls s)) /\
    exists new, trace s' = trace s ++ new /\
                timeline new = [EGet url; ESleep RETRY_WAIT_TIME].
Proof.
  intros Hax Htg.
  destruct (Hax 0%nat) as (e & He & H429); [lia|]. rewrite Nat.add_0_r in He.
  destruct (Htg 0%nat) as (m1 & Hm1); [lia|]. rewrite Nat.add_0_r in Hm1.
  destruct (Htg 1%nat) as (m2 & Hm2); [lia|]. rewrite Nat.add_1_r in Hm2.
  cbn [scrapeWbPage_attempts].
  unfold try_catch at 1. unfold mbind at 1, M_bind at 1, axios_get at 1. rewrite He.
  rewrite H429. unfold log, sleep, bot_sendMessage, bot_editMessageText. unfold_M.
  simpl. rewrite Hm1. simpl. rewrite Hm2.
  eexists. split; [reflexivity|]. simpl.
  split; [reflexivity|]. split; [reflexivity|].
  rewrite <- !app_assoc. eexists. split; [reflexivity|]. reflexivity.
Qed.

Lemma attempts_429 k :
  forall remaining s,
    (k <= remaining)%nat ->
    next_429 env s k -> telegram_delivers env s (2 * k) ->
    exists s',
      attempts remaining s = attempts (remaining - k) s' /\
      axios_calls s' = (axios_calls s + k)%nat /\
      telegram_calls s' = (telegram_calls s + 2 * k)%nat /\
      exists new, trace s' = trace s ++ new /\
                  timeline new = rate_limited_rounds url k.
Proof.
  induction k as [|k IH]; intros remaining s Hk Hax Htg.
  - exists s. rewrite Nat.sub_0_r, !Nat.add_0_r. repeat split; try done.
    exists []. by rewrite app_nil_r.
  - destruct remaining as [|remaining]; [lia|].
    destruct (attempt_429 remaining s) as (s1 & Hrun & Ha & Ht & new1 & Htr & Htl).
    { intros i Hi. apply Hax. lia. }
    { intros j Hj. apply Htg. lia. }
    destruct (IH remaining s1) as (s' & Hrun' & Ha' & Ht' & new' & Htr' & Htl').
    { lia. }
    { intros i Hi. rewrite Ha. destruct (Hax (S i)) as (e & He & H429); [lia|].
      exists e. split; [|done]. rewrite <- He. f_equal. lia. }
    { intros j Hj. rewrite Ht. destruct (Htg (S (S j))) as (m & Hm); [lia|].
      exists m. rewrite <- Hm. f_equal. lia. }
    exists s'. split; [by rewrite Hrun|]. split; [lia|]. split; [lia|].
    exists (new1 ++ new'). split; [by rewrite Htr', Htr, app_assoc|].
    rewrite timeline_app, Htl, Htl'. reflexivity.
Qed.

(** A request answered with another error ends the call at once. *)
Lemma attempt_fatal remaining s e :
  axios_reply env (axios_calls s) = Throw e -> is_429 e = false ->
  exists s',
    attempts (S remaining) s =
      (Throw (Error (scrape_errorMessage JSON_stringify page e)), s') /\
    exists new, trace s' = trace s ++ new /\ timeline new = [EGet url].
Proof.
  intros He H429. cbn [scrapeWbPage_attempts].
  unfold try_catch at 1. unfold mbind at 1, M_bind at 1, axios_get at 1. rewrite He.
  rewrite H429. unfold log. unfold_M.
  eexists. split; [reflexivity|]. cbn [trace emit tick_axios].
  rewrite <- !app_assoc. eexists. split; [reflexivity|]. reflexivity.
Qed.

(** The wait after a page that was fetched. *)
Definition pace : Z := if (Z.rem page 10 =? 0)%Z then 10000 else 2000.

(** A request that is answered ends the call with the body. *)
Lemma attempt_success remaining s data count :
  axios_reply env (axios_calls s) = Ret data -> productsCount data = Ret count ->
  exists s' logMessage,
    attempts (S remaining) s = (Ret (data, logMessage), s') /\
    exists new, trace s' = trace s ++ new /\ timeline new = [EGet url; ESleep pace].
Proof.
  intros Hd Hc. cbn [scrapeWbPage_attempts].
  unfold try_catch at 1. unfold mbind at 1, M_bind at 1, axios_get at 1. rewrite Hd.
  unfold eval at 1. unfold mbind at 1, M_bind at 1. rewrite Hc.
  unfold log, sleep, pace. unfold_M.
  destruct (Z.rem page 10 =? 0)%Z.
  - eexists _, _. split; [reflexivity|]. cbn [trace emit tick_axios].
    rewrite <- !app_assoc. eexists. split; [reflexivity|]. reflexivity.
  - eexists _, _. split; [reflexivity|]. cbn [trace emit tick_axios].
    rewrite <- !app_assoc. eexists. split; [reflexivity|]. reflexivity.
Qed.

End Retry.

(** The policy of [scrapeWbPage] as long as the notifications of the retry
    reach Telegram: each request answered 429 is followed by a wait of 30
    seconds and by another request, up to 6 requests in all; after the 6th
    429 in a row the call throws an error that names the page and the 6
    attempts; a request that fails otherwise ends the call at once, with no
    wait and no further request, and the error thrown names the page, the
    underlying message, the status when there is a response, and the body
    of the response when there is one. *)
Theorem scrape_retry_policy env J page category userId s k :
  next_429 env s k -> telegram_delivers env s (2 * k) ->
  let url := page_url page category in
  (k = 6%nat ->
     exists s' new,
       scrapeWbPage env J page category userId s =
         (Throw (Error ("Не удалось получить данные для страницы " +:+ pretty page +:+
                        " после 6 попыток.")), s') /\
       trace s' = trace s ++ new /\
       timeline new = rate_limited_rounds url 6) /\
  ((k < 6)%nat -> forall e,
     axios_reply env (axios_calls s + k) = Throw e -> is_429 e = false ->
     exists s' new,
       scrapeWbPage env J page category userId s =
         (Throw (Error (scrape_errorMessage J page e)), s') /\
       trace s' = trace s ++ new /\
       timeline new = rate_limited_rounds url k ++ [EGet url]) /\
  ((k < 6)%nat -> forall data count,
     axios_reply env (axios_calls s + k) = Ret data -> productsCount data = Ret count ->
     exists s' new logMessage,
       scrapeWbPage env J page category userId s = (Ret (data, logMessage), s') /\
       trace s' = trace s ++ new /\
       timeline new = rate_limited_rounds url k ++ [EGet url; ESleep (pace page)]) /\
  (forall msg status body,
     scrape_errorMessage J page (mkError msg (Some (status, body))) =
       "Ошибка при получении данных со страницы " +:+ pretty page +:+ ": " +:+ msg +:+
       nl +:+ "Статус: " +:+ pretty status +:+
       (if Js.truthy body then nl +:+ "Ответ сервера: " +:+ J body else "")) /\
  (forall msg,
     scrape_errorMessage J page (mkError msg None) =
       "Ошибка при получении данных со страницы " +:+ pretty page +:+ ": " +:+ msg).
Proof.
  intros Hax Htg url.
  assert (Hstart :
            scrapeWbPage env J page category userId s =
              scrapeWbPage_attempts env J url page userId SCRAPE_MAX_RETRIES
                (emit (ELog "info" ("URL : " +:+ url)) s)) by reflexivity.
  set (s0 := emit (ELog "info" ("URL : " +:+ url)) s) in Hstart.
  assert (Hrounds : (k <= 6)%nat ->
            exists s1 new,
              scrapeWbPage env J page category userId s =
                scrapeWbPage_attempts env J url page userId (6 - k) s1 /\
              axios_calls s1 = (axios_calls s + k)%nat /\
              trace s1 = trace s ++ new /\ timeline new = rate_limited_rounds url k).
  { intros Hk.
    destruct (attempts_429 env J url page userId k SCRAPE_MAX_RETRIES s0 Hk)
      as (s1 & Hrun & Ha & _ & new & Htr & Htl); [exact Hax|exact Htg|].
    exists s1, (ELog "info" ("URL : " +:+ url) :: new).
    split; [by rewrite Hstart, Hrun|]. split; [exact Ha|].
    split; [|exact Htl]. rewrite Htr. subst s0. simpl. by rewrite <- app_assoc. }
  split; [|split; [|split; [|split]]].
  - intros ->. destruct Hrounds as (s1 & new & Hrun & _ & Htr & Htl); [lia|].
    exists s1, new. split; [|by split]. rewrite Hrun. reflexivity.
  - intros Hk e He H429. destruct Hrounds as (s1 & new & Hrun & Ha & Htr & Htl); [lia|].
    destruct (6 - k)%nat as [|r] eqn:Hr; [lia|]. rewrite <- Ha in He.
    destruct (attempt_fatal env J url page userId r s1 e He H429)
      as (s' & Hrun' & new' & Htr' & Htl').
    exists s', (new ++ new'). split; [by rewrite Hrun|].
    split; [by rewrite Htr', Htr, app_assoc|]. by rewrite timeline_app, Htl, Htl'.
  - intros Hk data count Hd Hc.
    destruct Hrounds as (s1 & new & Hrun & Ha & Htr & Htl); [lia|].
    destruct (6 - k)%nat as [|r] eqn:Hr; [lia|]. rewrite <- Ha in Hd.
    destruct (attempt_success env J url page userId r s1 data count Hd Hc)
      as (s' & logMessage & Hrun' & new' & Htr' & Htl').
    exists s', (new ++ new'), logMessage. split; [by rewrite Hrun|].
    split; [by rewrite Htr', Htr, app_assoc|]. by rewrite timeline_app, Htl, Htl'.
  - intros msg status body. unfold scrape_errorMessage. cbn [response message].
    destruct (Js.truthy body); rewrite ?string_app_assoc, ?string_app_nil_r; reflexivity.
  - intros msg. reflexivity.
Qed.

(** The scenario of the specification: 429 twice, then a page with the
    product [A]. *)
Definition twice_429_env : Env :=
  {| axios_reply := fun n =>
       match n with
       | O | S O => Throw (mkError "Request failed with status code 429" (Some (429, VNull)))
       | _ => Ret (VObj [("data", VObj [("products", VArr [VObj [("name", VStr "A")]])])])
       end;
     telegram_reply := fun n => Ret (Z.of_nat n);
     fs_reply := fun _ => Ret tt;
     clock := fun n => Z.of_nat n |}.

Lemma scrape_retry_policy_witness :
  exists s' new logMessage,
    scrapeWbPage twice_429_env (fun _ => "") 1 dom_category 7 initial_state =
      (Ret (VObj [("data", VObj [("products", VArr [VObj [("name", VStr "A")]])])],
            logMessage), s') /\
    trace s' = trace initial_state ++ new /\
    timeline new =
      rate_limited_rounds (page_url 1 dom_category) 2 ++
      [EGet (page_url 1 dom_category); ESleep (pace 1)].
Proof.
  assert (Hax : next_429 twice_429_env initial_state 2).
  { intros [|[|i]] Hi; [eexists; split; reflexivity..|lia]. }
  assert (Htg : telegram_delivers twice_429_env initial_state (2 * 2)).
  { intros j _. eexists. reflexivity. }
  apply (proj1 (proj2 (proj2
           (scrape_retry_policy twice_429_env (fun _ => "") 1 dom_category 7
              initial_state 2 Hax Htg)))
           ltac:(lia)
           (VObj [("data", VObj [("products", VArr [VObj [("name", VStr "A")]])])])
           (VNum 1)).
  - reflexivity.
  - reflexivity.
Defined.

(** *** A notification that fails *)

(** C5 holds of the code only while Telegram takes the notifications: the
    two notices of a retry round are awaited inside the [catch] block
    without a handler of their own.  When the page request is answered 429
    and [bot.sendMessage] fails, the call throws the Telegram error after
    that one request, without the wait and without a retry; when the notice
    is sent and [bot.editMessageText] fails after the wait, the call throws
    the Telegram error after one request and one wait, without a retry. *)
Theorem notice_failure_ends_retries env J page category userId s e :
  axios_reply env (axios_calls s) = Throw e -> is_429 e = true ->
  let url := page_url page category in
  (forall e',
     telegram_reply env (telegram_calls s) = Throw e' ->
     exists s' new,
       scrapeWbPage env J page category userId s = (Throw e', s') /\
       axios_calls s' = S (axios_calls s) /\
       trace s' = trace s ++ new /\
       timeline new = [EGet url]) /\
  (forall m e',
     telegram_reply env (telegram_calls s) = Ret m ->
     telegram_reply env (S (telegram_calls s)) = Throw e' ->
     exists s' new,
       scrapeWbPage env J page category userId s = (Throw e', s') /\
       axios_calls s' = S (axios_calls s) /\
       trace s' = trace s ++ new /\
       timeline new = [EGet url; ESleep RETRY_WAIT_TIME]).
Proof.
  intros He H429 url. split.
  - intros e' Hm.
    unfold scrapeWbPage. fold url. unfold mbind at 1, M_bind at 1, log at 1.
    cbn [scrapeWbPage_attempts SCRAPE_MAX_RETRIES].
    unfold try_catch at 1. unfold mbind at 1, M_bind at 1, axios_get at 1.
    cbn [modify axios_calls emit]. rewrite He. rewrite H429.
    unfold log, sleep, bot_sendMessage, bot_editMessageText. unfold_M.
    simpl. rewrite Hm.
    eexists _, _. split; [reflexivity|]. simpl. split; [reflexivity|].
    rewrite <- !app_assoc. split; [reflexivity|]. reflexivity.
  - intros m e' Hm1 Hm2.
    unfold scrapeWbPage. fold url. unfold mbind at 1, M_bind at 1, log at 1.
    cbn [scrapeWbPage_attempts SCRAPE_MAX_RETRIES].
    unfold try_catch at 1. unfold mbind at 1, M_bind at 1, axios_get at 1.
    cbn [modify axios_calls emit]. rewrite He. rewrite H429.
    unfold log, sleep, bot_sendMessage, bot_editMessageText. unfold_M.
    simpl. rewrite Hm1. simpl. rewrite Hm2.
    eexists _, _. split; [reflexivity|]. simpl. split; [reflexivity|].
    rewrite <- !app_assoc. split; [reflexivity|]. reflexivity.
Qed.

(** A world in which every page request is answered 429 and Telegram is out
    of reach. *)
Definition telegram_down_env : Env :=
  {| axios_reply := fun _ =>
       Throw (mkError "Request failed with status code 429" (Some (429, VNull)));
     telegram_reply := fun _ => Throw (Error "ETELEGRAM: 502 Bad Gateway");
     fs_reply := fun _ => Ret tt;
     clock := fun n => Z.of_nat n |}.

Lemma notice_failure_ends_retries_witness :
  exists s' new,
    scrapeWbPage telegram_down_env (fun _ => "") 1 dom_category 7 initial_state =
      (Throw (Error "ETELEGRAM: 502 Bad Gateway"), s') /\
    axios_calls s' = S (axios_calls initial_state) /\
    trace s' = trace initial_state ++ new /\
    timeline new = [EGet (page_url 1 dom_category)].
Proof.
  apply (proj1 (notice_failure_ends_retries telegram_down_env (fun _ => "") 1 dom_category 7
                  initial_state
                  (mkError "Request failed with status code 429" (Some (429, VNull)))
                  eq_refl eq_refl)
           (Error "ETELEGRAM: 502 Bad Gateway")).
  reflexivity.
Defined.

(** ** The footprint of a session

    What a step of the pipeline run for one user may do to the process: it
    leaves [activeParsingUsers] alone, appends to the trace only events that
    concern this user and requests that are allowed, only appends to
    [results], and leaves the progress messages of the other users alone. *)

Definition session_event (userId : Z) (allowed : string -> Prop) (e : Event) : Prop :=
  match e with
  | ESendMessage chat _ | EEditMessage chat _ _ | ESendDocument chat _ => chat = userId
  | EGet u => allowed u
  | EPost u _ => u = EVIRMA_URL
  | _ => True
  end.

Definition footprint (userId : Z) (allowed : string -> Prop) (s s' : State) : Prop :=
  activeParsingUsers s' = activeParsingUsers s /\
  (exists new, trace s' = trace s ++ new /\ Forall (session_event userId allowed) new) /\
  results s `prefix_of` results s' /\
  (forall u, u <> userId -> logMessages s' !! u = logMessages s !! u).

Definition within (userId : Z) (allowed : string -> Prop) {A} (m : M A) : Prop :=
  forall s, footprint userId allowed s (m s).2.

Lemma footprint_refl userId allowed s : footprint userId allowed s s.
Proof.
  split; [done|]. split; [exists []; by rewrite app_nil_r|]. split; done.
Qed.

Lemma footprint_trans userId allowed s1 s2 s3 :
  footprint userId allowed s1 s2 -> footprint userId allowed s2 s3 ->
  footprint userId allowed s1 s3.
Proof.
  intros (Ha & (n1 & Ht1 & Hn1) & Hr & Hl) (Ha' & (n2 & Ht2 & Hn2) & Hr' & Hl').
  split; [congruence|]. split.
  - exists (n1 ++ n2). split; [by rewrite Ht2, Ht1, app_assoc|]. by apply Forall_app.
  - split; [by etrans|]. intros u Hu. by rewrite Hl', Hl.
Qed.

Lemma footprint_mono userId (allowed allowed' : string -> Prop) s s' :
  (forall u, allowed u -> allowed' u) ->
  footprint userId allowed s s' -> footprint userId allowed' s s'.
Proof.
  intros Hsub (Ha & (new & Ht & Hn) & Hr & Hl).
  split; [done|]. split; [|by split]. exists new. split; [done|].
  eapply Forall_impl; [exact Hn|]. intros [] He; simpl in *; auto.
Qed.

Lemma footprint_emit userId allowed e s :
  session_event userId allowed e -> footprint userId allowed s (emit e s).
Proof.
  intros He. split; [done|]. split; [|by split].
  exists [e]. split; [done|]. by constructor.
Qed.

Lemma within_mono userId (allowed allowed' : string -> Prop) {A} (m : M A) :
  (forall u, allowed u -> allowed' u) -> within userId allowed m -> within userId allowed' m.
Proof. intros Hsub Hm s. eapply footprint_mono; [exact Hsub|apply Hm]. Qed.

Lemma within_ret userId allowed {A} (a : A) : within userId allowed (mret a).
Proof. intros s. apply footprint_refl. Qed.

Lemma within_throw userId allowed {A} e : within userId allowed (@throw A e).
Proof. intros s. apply footprint_refl. Qed.

Lemma within_eval userId allowed {A} (o : outcome A) : within userId allowed (eval o).
Proof. intros s. apply footprint_refl. Qed.

Lemma within_get_state userId allowed : within userId allowed get_state.
Proof. intros s. apply footprint_refl. Qed.

Lemma within_bind userId allowed {A B} (m : M A) (k : A -> M B) :
  within userId allowed m -> (forall a, within userId allowed (k a)) ->
  within userId allowed (m ≫= k).
Proof.
  intros Hm Hk s. specialize (Hm s). unfold_M.
  destruct (m s) as [[a|e] s']; simpl in *; [|done].
  eapply footprint_trans; [exact Hm|apply Hk].
Qed.

Lemma within_try_catch userId allowed {A} (m : M A) (h : error -> M A) :
  within userId allowed m -> (forall e, within userId allowed (h e)) ->
  within userId allowed (try_catch m h).
Proof.
  intros Hm Hh s. specialize (Hm s). unfold_M.
  destruct (m s) as [[a|e] s']; simpl in *; [done|].
  eapply footprint_trans; [exact Hm|apply Hh].
Qed.

Lemma within_if userId allowed {A} (b : bool) (m1 m2 : M A) :
  within userId allowed m1 -> within userId allowed m2 ->
  within userId allowed (if b then m1 else m2).
Proof. by destruct b. Qed.

Lemma within_log userId allowed text level : within userId allowed (log text level).
Proof. intros s. by apply footprint_emit. Qed.

Lemma within_sleep userId allowed ms : within userId allowed (sleep ms).
Proof. intros s. by apply footprint_emit. Qed.

Lemma within_axios_get env userId (allowed : string -> Prop) url :
  allowed url -> within userId allowed (axios_get env url).
Proof.
  intros Hu s. split; [done|]. split; [|by split].
  exists [EGet url]. split; [done|]. by constructor.
Qed.

Lemma within_axios_post env userId allowed keywords :
  within userId allowed (axios_post env EVIRMA_URL keywords).
Proof.
  intros s. split; [done|]. split; [|by split].
  exists [EPost EVIRMA_URL keywords]. split; [done|]. by constructor.
Qed.

Lemma within_bot_sendMessage env userId allowed text :
  within userId allowed (bot_sendMessage env userId text).
Proof.
  intros s. split; [done|]. split; [|by split].
  exists [ESendMessage userId text]. split; [done|]. by constructor.
Qed.

Lemma within_bot_editMessageText env userId allowed text message_id :
  within userId allowed (bot_editMessageText env text userId message_id).
Proof.
  intros s. split; [done|]. split; [|by split].
  exists [EEditMessage userId message_id text]. split; [done|]. by constructor.
Qed.

Lemma within_bot_sendDocument env userId allowed path :
  within userId allowed (bot_sendDocument env userId path).
Proof.
  intros s. split; [done|]. split; [|by split].
  exists [ESendDocument userId path]. split; [done|]. by constructor.
Qed.

Lemma within_fs_access env userId allowed path : within userId allowed (fs_access env path).
Proof.
  intros s. split; [done|]. split; [|by split].
  exists [EAccess path]. split; [done|]. by constructor.
Qed.

Lemma within_fs_writeFile env userId allowed path rows :
  within userId allowed (fs_writeFile env path rows).
Proof.
  intros s. split; [done|]. split; [|by split].
  exists [EWriteFile path rows]. split; [done|]. by constructor.
Qed.

Lemma within_Date_now env userId allowed : within userId allowed (Date_now env).
Proof. intros s. split; [done|]. split; [exists []; by rewrite app_nil_r|]. by split. Qed.

Lemma within_set_logMessages userId allowed (f : State -> Z * list string) :
  within userId allowed
    (modify (fun s => set_logMessages (<[userId := f s]> (logMessages s)) s)).
Proof.
  intros s. split; [done|]. split; [exists []; by rewrite app_nil_r|]. split; [done|].
  intros u Hu. simpl. by rewrite lookup_insert_ne.
Qed.

Lemma within_push_results userId allowed (rows : list Row) :
  within userId allowed (modify (fun s => set_results (results s ++ rows) s)).
Proof.
  intros s. split; [done|]. split; [exists []; by rewrite app_nil_r|]. split; [|done].
  simpl. by apply prefix_app_r.
Qed.

Lemma within_set_catalogData userId allowed catalog :
  within userId allowed (modify (set_catalogData catalog)).
Proof. intros s. split; [done|]. split; [exists []; by rewrite app_nil_r|]. by split. Qed.

Lemma within_setTimeout userId allowed ms path :
  within userId allowed (modify (emit (ESetTimeout ms path))).
Proof. intros s. by apply footprint_emit. Qed.

Create HintDb within discriminated.

#[global] Hint Resolve within_ret within_throw within_eval within_get_state within_if
  within_log within_sleep within_axios_post within_bot_sendMessage
  within_bot_editMessageText within_bot_sendDocument within_fs_access
  within_fs_writeFile within_Date_now within_push_results within_set_catalogData
  within_setTimeout : within.

(** Splits a computation along its combinators down to the calls above. *)
Ltac within :=
  repeat first
    [ progress auto with within
    | apply within_bind; [|intros ?]
    | apply within_try_catch; [|intros ?]
    | match goal with
      | |- within ?u ?a (modify (fun s => set_logMessages (<[?u := ?v]> _) s)) =>
          apply (within_set_logMessages u a (fun _ => v))
      | |- within _ _ (match ?x with _ => _ end) => destruct x
      | |- within _ _ (let '(_, _) := ?x in _) => destruct x
      end ].

Section Footprint.

Variable env : Env.
Variable JSON_stringify : jsval -> string.
Variable URL_new : string -> option URL.
Variable userId : Z.

Lemma within_updateLogMessage allowed logMessage :
  within userId allowed (updateLogMessage env userId logMessage).
Proof.
  unfold updateLogMessage. within.
Qed.

Lemma within_saveToExcel allowed data filename :
  within userId allowed (saveToExcel env data filename).
Proof. unfold saveToExcel. within. Qed.

Lemma within_sendExcelToUser allowed filePath filename :
  within userId allowed (sendExcelToUser env filePath filename userId).
Proof. unfold sendExcelToUser. within. Qed.

Lemma within_queryEvirmaApi_attempts allowed keywords remaining :
  within userId allowed (queryEvirmaApi_attempts env keywords remaining).
Proof. induction remaining as [|r IH]; simpl; within. Qed.

Lemma within_queryEvirmaApi allowed keywords :
  within userId allowed (queryEvirmaApi env keywords).
Proof. apply within_queryEvirmaApi_attempts. Qed.

Definition CATALOG_URL : string :=
  "https://static-basket-01.wbbasket.ru/vol0/data/main-menu-ru-ru-v3.json".

Lemma within_fetchWbCatalog (allowed : string -> Prop) :
  allowed CATALOG_URL -> within userId allowed (fetchWbCatalog env).
Proof. intros Ha. unfold fetchWbCatalog. within. by apply within_axios_get. Qed.

Lemma within_extractCategoryData allowed catalog :
  within userId allowed (extractCategoryData catalog).
Proof. unfold extractCategoryData. within. Qed.

Hint Resolve within_updateLogMessage within_saveToExcel within_sendExcelToUser
  within_queryEvirmaApi within_extractCategoryData : within.

Lemma within_findCategoryByUrl (allowed : string -> Prop) url :
  allowed CATALOG_URL -> within userId allowed (findCategoryByUrl env JSON_stringify URL_new url).
Proof.
  intros Ha. unfold findCategoryByUrl. within. by apply within_axios_get.
Qed.

Lemma within_scrapeWbPage_attempts (allowed : string -> Prop) url page remaining :
  allowed url ->
  within userId allowed (scrapeWbPage_attempts env JSON_stringify url page userId remaining).
Proof.
  intros Ha. induction remaining as [|r IH]; simpl; within; by apply within_axios_get.
Qed.

Lemma within_scrapeWbPageWithQueue (allowed : string -> Prop) page category :
  allowed (page_url page category) ->
  within userId allowed (scrapeWbPageWithQueue env JSON_stringify page category userId).
Proof.
  intros Ha. unfold scrapeWbPageWithQueue, queue_add, scrapeWbPage.
  apply within_bind; [within|intros _]. by apply within_scrapeWbPage_attempts.
Qed.

Lemma within_parsePage (allowed : string -> Prop) page category :
  allowed (page_url page category) ->
  within userId allowed (parsePage env JSON_stringify page category userId).
Proof.
  intros Ha. unfold parsePage.
  apply within_try_catch; [|intros e; within].
  apply within_bind; [by apply within_scrapeWbPageWithQueue|intros [data logMessage]].
  within.
Qed.

(** The page URLs of the pages [first], ..., [first + count - 1]. *)
Definition page_urls (category : Category) (first : Z) (count : nat) (u : string) : Prop :=
  exists page, (first <= page < first + Z.of_nat count)%Z /\ u = page_url page category.

Lemma within_parsePages remaining :
  forall page category,
    within userId (page_urls category page remaining)
      (parsePages env JSON_stringify remaining page category userId).
Proof.
  induction remaining as [|r IH]; intros page category; [apply within_ret|].
  cbn [parsePages]. apply within_bind.
  - apply within_parsePage. exists page. split; [lia|done].
  - intros [|]; [|apply within_ret].
    eapply within_mono; [|apply IH]. intros u (p & Hp & ->). exists p. split; [lia|done].
Qed.

Lemma within_report allowed category : within userId allowed (report env category userId).
Proof. unfold report. within. Qed.

(** The requests a session may send with [axios.get]: the catalog, and the
    pages 1 to [MAX_PAGES] of the resolved category. *)
Definition session_urls (u : string) : Prop :=
  u = CATALOG_URL \/
  exists category page, (1 <= page <= Z.of_nat MAX_PAGES)%Z /\ u = page_url page category.

Lemma within_parseCategory_try url :
  within userId session_urls (parseCategory_try env JSON_stringify URL_new url userId).
Proof.
  unfold parseCategory_try. apply within_bind.
  - apply within_findCategoryByUrl. by left.
  - intros [c|]; [|within]. apply within_bind; [|intros _; apply within_report].
    eapply within_mono; [|apply within_parsePages].
    intros u (p & Hp & ->). right. exists c, p. split; [unfold MAX_PAGES in *; lia|done].
Qed.

Lemma within_parseCategory_catch allowed error :
  within userId allowed (parseCategory_catch error).
Proof. unfold parseCategory_catch. within. Qed.

End Footprint.

(** ** What a session does to the rest of the process *)

(** A call of [parseCategory] for one user, whatever it meets, sends
    Telegram messages, edits and documents to this user only, requests with
    [axios.get] only the catalog and pages 1 to 50 of a category, posts only
    to the enrichment service, and leaves the active flags and the progress
    messages of all other users as they were. *)
Theorem parseCategory_user_isolation env J T P url userId st :
  let st' := (parseCategory env J T P url userId st).2 in
  (exists new, trace st' = trace st ++ new /\
               Forall (session_event userId session_urls) new) /\
  (forall u, u <> userId -> u ∈ activeParsingUsers st' <-> u ∈ activeParsingUsers st) /\
  (forall u, u <> userId -> logMessages st' !! u = logMessages st !! u).
Proof.
  destruct (decide (userId ∈ activeParsingUsers st)) as [Hin|Hfree].
  - rewrite (parseCategory_guarded env J T P url userId st Hin). simpl.
    split; [|by split]. eexists. split; [reflexivity|]. by repeat constructor.
  - destruct (parseCategory_try_catch_returns env J P url userId (marked userId st))
      as (r & s_try & Htry).
    rewrite (parseCategory_free_run env J T P url userId st r s_try Hfree Htry).
    assert (Hw : within userId session_urls
                   (try_catch (parseCategory_try env J P url userId) parseCategory_catch)).
    { apply within_try_catch; [apply within_parseCategory_try|].
      intros e. apply within_parseCategory_catch. }
    specialize (Hw (marked userId st)). rewrite Htry in Hw.
    destruct Hw as (Ha & (new & Ht & Hn) & _ & Hl). simpl in *.
    split; [|split].
    + eexists. rewrite Ht, <- app_assoc. split; [reflexivity|].
      apply Forall_app. split; [exact Hn|]. by repeat constructor.
    + intros u Hu. rewrite Ha, elem_of_difference, elem_of_union, !elem_of_singleton.
      split; [intros [[?|?] ?]; done|]. intros Hin. split; [by right|done].
    + exact Hl.
Qed.

(** The page loop requests only pages 1 to 50 of the category it was given,
    posts only to the enrichment service, and writes to this user only. *)
Theorem page_loop_within_cap env J category userId s :
  exists new,
    trace (parsePages env J MAX_PAGES 1 category userId s).2 = trace s ++ new /\
    Forall (session_event userId (page_urls category 1 50)) new.
Proof.
  destruct (within_parsePages env J userId MAX_PAGES 1 category s) as (_ & Hnew & _).
  exact Hnew.
Qed.

(** ** The retry policy of the enrichment client *)

(** The request numbered [n] fails with [e]: axios throws [e], or the body
    makes the filter of [queryEvirmaApi] throw [e] inside the [try]. *)
Definition evirma_fails (env : Env) (n : nat) (e : error) : Prop :=
  axios_reply env n = Throw e \/
  exists body, axios_reply env n = Ret body /\ filterEvirmaData body = Throw e.

(** A failed attempt that is not the last one: a wait of two seconds, then
    the next attempt. *)
Lemma evirma_attempt_retried env keywords remaining s e :
  evirma_fails env (axios_calls s) e ->
  queryEvirmaApi_attempts env keywords (S (S remaining)) s =
    queryEvirmaApi_attempts env keywords (S remaining)
      (emit (ESleep 2000) (tick_axios (emit (EPost EVIRMA_URL keywords) s))).
Proof.
  intros Hf. cbn [queryEvirmaApi_attempts].
  unfold try_catch at 1. unfold mbind at 1, M_bind at 1, axios_post at 1.
  assert (Hattempt : (EVIRMA_MAX_RETRIES <=? EVIRMA_MAX_RETRIES - S remaining)%nat = false).
  { apply Nat.leb_gt. unfold EVIRMA_MAX_RETRIES. lia. }
  destruct Hf as [He|(body & Hb & He)].
  - rewrite He, Hattempt. reflexivity.
  - rewrite Hb. unfold eval at 1. rewrite He, Hattempt. reflexivity.
Qed.

(** The failure of the last attempt is logged and thrown with a message
    that wraps the message of the last error. *)
Lemma evirma_attempt_last env keywords s e :
  evirma_fails env (axios_calls s) e ->
  let errorMessage := "Ошибка при запросе к Evirma API: " +:+ message e in
  queryEvirmaApi_attempts env keywords 1 s =
    (Throw (Error errorMessage),
     emit (ELog "error" errorMessage) (tick_axios (emit (EPost EVIRMA_URL keywords) s))).
Proof.
  intros Hf. cbn [queryEvirmaApi_attempts].
  unfold try_catch at 1. unfold mbind at 1, M_bind at 1, axios_post at 1.
  destruct Hf as [He|(body & Hb & He)].
  - rewrite He. reflexivity.
  - rewrite Hb. unfold eval at 1. rewrite He. reflexivity.
Qed.

Lemma evirma_attempt_answered env keywords remaining s body v :
  axios_reply env (axios_calls s) = Ret body -> filterEvirmaData body = Ret v ->
  queryEvirmaApi_attempts env keywords (S remaining) s =
    (Ret v, tick_axios (emit (EPost EVIRMA_URL keywords) s)).
Proof.
  intros Hb Hv. cbn [queryEvirmaApi_attempts].
  unfold try_catch, axios_post. unfold_M. rewrite Hb, Hv. reflexivity.
Qed.

(** [k] failed attempts, each followed by the wait. *)
Definition evirma_rounds (keywords : list jsval) (k : nat) : list Event :=
  concat (replicate k [EPost EVIRMA_URL keywords; ESleep 2000]).

Lemma evirma_attempts_retried env keywords k :
  forall remaining s,
    (forall i, (i < k)%nat -> exists e, evirma_fails env (axios_calls s + i) e) ->
    exists s',
      queryEvirmaApi_attempts env keywords (k + S remaining) s =
        queryEvirmaApi_attempts env keywords (S remaining) s' /\
      axios_calls s' = (axios_calls s + k)%nat /\
      trace s' = trace s ++ evirma_rounds keywords k.
Proof.
  induction k as [|k IH]; intros remaining s Hf.
  - exists s. by rewrite Nat.add_0_r, app_nil_r.
  - destruct (Hf 0%nat) as [e He]; [lia|]. rewrite Nat.add_0_r in He.
    change (S k + S remaining)%nat with (S (k + S remaining)).
    rewrite Nat.add_succ_r.
    rewrite (evirma_attempt_retried env keywords (k + remaining) s e He).
    rewrite <- Nat.add_succ_r.
    destruct (IH remaining
                (emit (ESleep 2000) (tick_axios (emit (EPost EVIRMA_URL keywords) s))))
      as (s' & Hrun & Ha & Ht).
    { intros i Hi. destruct (Hf (S i)) as [e' He']; [lia|]. exists e'.
      simpl. by rewrite <- Nat.add_succ_r. }
    exists s'. split; [exact Hrun|]. split; [simpl in Ha; lia|].
    rewrite Ht. simpl. by rewrite <- !app_assoc.
Qed.

(** [queryEvirmaApi] makes at most 3 requests.  When the first [k] of them
    fail, [k] at most 2, and the next one is answered, it returns what the
    filter makes of that answer, after [k] waits of two seconds; when 3 in a
    row fail it logs and throws an error whose message wraps the message of
    the last failure, after 3 requests and 2 waits. *)
Theorem evirma_retry_policy env keywords s :
  (forall k body v,
     (k <= 2)%nat ->
     (forall i, (i < k)%nat -> exists e, evirma_fails env (axios_calls s + i) e) ->
     axios_reply env (axios_calls s + k) = Ret body -> filterEvirmaData body = Ret v ->
     exists s',
       queryEvirmaApi env keywords s = (Ret v, s') /\
       trace s' = trace s ++ evirma_rounds keywords k ++ [EPost EVIRMA_URL keywords]) /\
  (forall e,
     (forall i, (i < 2)%nat -> exists e', evirma_fails env (axios_calls s + i) e') ->
     evirma_fails env (axios_calls s + 2) e ->
     let errorMessage := "Ошибка при запросе к Evirma API: " +:+ message e in
     exists s',
       queryEvirmaApi env keywords s = (Throw (Error errorMessage), s') /\
       trace s' = trace s ++ evirma_rounds keywords 2 ++
                  [EPost EVIRMA_URL keywords; ELog "error" errorMessage]).
Proof.
  split.
  - intros k body v Hk Hf Hb Hv.
    destruct (evirma_attempts_retried env keywords k (2 - k) s Hf) as (s1 & Hrun & Ha & Ht).
    replace (k + S (2 - k))%nat with EVIRMA_MAX_RETRIES in Hrun
      by (unfold EVIRMA_MAX_RETRIES; lia).
    rewrite <- Ha in Hb.
    eexists. unfold queryEvirmaApi. rewrite Hrun.
    rewrite (evirma_attempt_answered env keywords (2 - k) s1 body v Hb Hv).
    split; [reflexivity|]. simpl. by rewrite Ht, <- app_assoc.
  - intros e Hf He errorMessage.
    destruct (evirma_attempts_retried env keywords 2 0 s Hf) as (s1 & Hrun & Ha & Ht).
    rewrite <- Ha in He.
    eexists. unfold queryEvirmaApi. change EVIRMA_MAX_RETRIES with (2 + 1)%nat.
    rewrite Hrun. rewrite (evirma_attempt_last env keywords s1 e He).
    split; [reflexivity|]. simpl. rewrite Ht, <- !app_assoc. reflexivity.
Qed.

(** Two failures, one of them a body with a [null] entry, then an answer. *)
Definition flaky_evirma_env : Env :=
  {| axios_reply := fun n =>
       match n with
       | O => Throw (Error "timeout of 30000ms exceeded")
       | S O => Ret (filteredData [("A", VNull)])
       | _ => Ret (filteredData [("A", VObj [("cluster", VObj [("product_count", VNum 5)])])])
       end;
     telegram_reply := fun n => Ret (Z.of_nat n);
     fs_reply := fun _ => Ret tt;
     clock := fun n => Z.of_nat n |}.

Lemma evirma_retry_policy_witness :
  exists s',
    queryEvirmaApi flaky_evirma_env [VStr "A"] initial_state =
      (Ret (filteredData [("A", VObj [("cluster", VObj [("product_count", VNum 5)])])]), s') /\
    trace s' = trace initial_state ++ evirma_rounds [VStr "A"] 2 ++
               [EPost EVIRMA_URL [VStr "A"]].
Proof.
  apply (proj1 (evirma_retry_policy flaky_evirma_env [VStr "A"] initial_state) 2%nat
           (filteredData [("A", VObj [("cluster", VObj [("product_count", VNum 5)])])])).
  - lia.
  - intros [|[|i]] Hi; [| |lia].
    + eexists. left. reflexivity.
    + eexists. right. eexists. split; reflexivity.
  - reflexivity.
  - reflexivity.
Defined.

(** ** How the page loop ends *)

(** A page without products ends the loop before any request to the
    enrichment service: after the progress message only a log line is
    written, and no later page is requested. *)
Theorem zero_products_stop_without_enrichment
    env J page category userId s data logMessage s1 s2 remaining :
  scrapeWbPageWithQueue env J page category userId s = (Ret (data, logMessage), s1) ->
  updateLogMessage env userId logMessage s1 = (Ret tt, s2) ->
  processProducts data = Ret [] ->
  let s3 := emit (ELog "info" ("Page " +:+ pretty page +:+
                               ": no products found, stopping parsing.")) s2 in
  parsePage env J page category userId s = (Ret Break, s3) /\
  parsePages env J (S remaining) page category userId s = (Ret tt, s3).
Proof.
  intros Hscrape Hlog Hproducts s3.
  assert (Hpage : parsePage env J page category userId s = (Ret Break, s3)).
  { unfold parsePage. unfold try_catch at 1. unfold mbind at 1, M_bind at 1.
    rewrite Hscrape. unfold mbind at 1, M_bind at 1. rewrite Hlog.
    unfold mbind at 1, M_bind at 1, eval at 1. rewrite Hproducts. reflexivity. }
  split; [exact Hpage|].
  cbn [parsePages]. unfold mbind at 1, M_bind at 1. rewrite Hpage. reflexivity.
Qed.

Definition empty_page_env : Env :=
  {| axios_reply := fun _ => Ret (VObj [("data", VObj [("products", VArr [])])]);
     telegram_reply := fun n => Ret (Z.of_nat n);
     fs_reply := fun _ => Ret tt;
     clock := fun n => Z.of_nat n |}.

Lemma zero_products_stop_without_enrichment_witness :
  let s2 := (updateLogMessage empty_page_env 7 "Страница 1: получено 0 товаров"
               (scrapeWbPageWithQueue empty_page_env (fun _ => "") 1 dom_category 7
                  initial_state).2).2 in
  let s3 := emit (ELog "info" ("Page " +:+ pretty 1%Z +:+
                               ": no products found, stopping parsing.")) s2 in
  parsePage empty_page_env (fun _ => "") 1 dom_category 7 initial_state = (Ret Break, s3) /\
  parsePages empty_page_env (fun _ => "") 50 1 dom_category 7 initial_state = (Ret tt, s3).
Proof.
  apply (zero_products_stop_without_enrichment empty_page_env (fun _ => "") 1 dom_category 7
           initial_state (VObj [("data", VObj [("products", VArr [])])])
           "Страница 1: получено 0 товаров"
           (scrapeWbPageWithQueue empty_page_env (fun _ => "") 1 dom_category 7
              initial_state).2
           (updateLogMessage empty_page_env 7 "Страница 1: получено 0 товаров"
              (scrapeWbPageWithQueue empty_page_env (fun _ => "") 1 dom_category 7
                 initial_state).2).2 49).
  - vm_compute. reflexivity.
  - vm_compute. reflexivity.
  - reflexivity.
Defined.

(** When scraping a page throws, the loop stops after telling the user: the
    error message is sent to the user and nothing else happens in the loop.
    When that message cannot be sent either, the error of the Telegram
    client leaves the loop as an exception. *)
Theorem scrape_failure_aborts_loop env J page category userId s e s1 remaining :
  scrapeWbPageWithQueue env J page category userId s = (Throw e, s1) ->
  let s2 := tick_telegram (emit (ESendMessage userId ("❌ " +:+ message e)) s1) in
  (forall m, telegram_reply env (telegram_calls s1) = Ret m ->
     parsePages env J (S remaining) page category userId s = (Ret tt, s2)) /\
  (forall e', telegram_reply env (telegram_calls s1) = Throw e' ->
     parsePages env J (S remaining) page category userId s = (Throw e', s2)).
Proof.
  intros Hscrape s2.
  assert (Hpage : parsePage env J page category userId s =
                  (bot_sendMessage env userId ("❌ " +:+ message e) ≫= fun _ => mret Break) s1).
  { unfold parsePage. unfold try_catch at 1. unfold mbind at 1, M_bind at 1.
    rewrite Hscrape. reflexivity. }
  split.
  - intros m Hm. cbn [parsePages]. unfold mbind at 1, M_bind at 1. rewrite Hpage.
    unfold bot_sendMessage. unfold_M. rewrite Hm. reflexivity.
  - intros e' He'. cbn [parsePages]. unfold mbind at 1, M_bind at 1. rewrite Hpage.
    unfold bot_sendMessage. unfold_M. rewrite He'. reflexivity.
Qed.

Lemma scrape_failure_aborts_loop_witness :
  let s1 := (scrapeWbPageWithQueue scenario_env (fun _ => "") 1 dom_category 7
               (tick_axios initial_state)).2 in
  parsePages scenario_env (fun _ => "") 50 1 dom_category 7 (tick_axios initial_state) =
    (Ret tt,
     tick_telegram
       (emit (ESendMessage 7 ("❌ " +:+
                "Ошибка при получении данных со страницы 1: Network Error")) s1)).
Proof.
  apply (proj1 (scrape_failure_aborts_loop scenario_env (fun _ => "") 1 dom_category 7
                  (tick_axios initial_state)
                  (Error "Ошибка при получении данных со страницы 1: Network Error")
                  (scrapeWbPageWithQueue scenario_env (fun _ => "") 1 dom_category 7
                     (tick_axios initial_state)).2 49 ltac:(vm_compute; reflexivity)) 0%Z).
  reflexivity.
Defined.

(** When the enrichment request fails for good, the loop stops after
    sending the error message to the user; the rows of the page are not
    added.  When that message cannot be sent, the handler of the page sends
    the error of the Telegram client instead, and the loop stops all the
    same. *)
Theorem enrichment_failure_aborts_loop
    env J page category userId s data logMessage s1 s2 products e s3 remaining :
  scrapeWbPageWithQueue env J page category userId s = (Ret (data, logMessage), s1) ->
  updateLogMessage env userId logMessage s1 = (Ret tt, s2) ->
  processProducts data = Ret products -> products <> [] ->
  queryEvirmaApi env products s2 = (Throw e, s3) ->
  let s4 := tick_telegram (emit (ESendMessage userId ("❌ " +:+ message e)) s3) in
  (forall m, telegram_reply env (telegram_calls s3) = Ret m ->
     parsePages env J (S remaining) page category userId s = (Ret tt, s4) /\
     results s4 = results s3) /\
  (forall e' m,
     telegram_reply env (telegram_calls s3) = Throw e' ->
     telegram_reply env (S (telegram_calls s3)) = Ret m ->
     parsePages env J (S remaining) page category userId s =
       (Ret tt, tick_telegram (emit (ESendMessage userId ("❌ " +:+ message e')) s4))).
Proof.
  intros Hscrape Hlog Hproducts Hne Hq s4.
  assert (Hpage : parsePage env J page category userId s =
            try_catch
              (evirmaResponse ←
                 (bot_sendMessage env userId ("❌ " +:+ message e) ≫=
                    fun _ => mret (@None jsval));
               match evirmaResponse with
               | None => mret Break
               | Some evirmaResponse =>
                   pageResults ← eval (parseEvirmaResponse evirmaResponse);
                   modify (fun s => set_results (results s ++ pageResults) s);;
                   mret Continue
               end)
              (fun error => bot_sendMessage env userId ("❌ " +:+ message error);;
                            mret Break) s3).
  { unfold parsePage. unfold try_catch at 1. unfold mbind at 1, M_bind at 1.
    rewrite Hscrape. unfold mbind at 1, M_bind at 1. rewrite Hlog.
    unfold mbind at 1, M_bind at 1, eval at 1. rewrite Hproducts.
    destruct products as [|p ps]; [done|]. cbn [length Nat.eqb].
    unfold mbind at 1, M_bind at 1. unfold try_catch at 1.
    unfold mbind at 1, M_bind at 1. rewrite Hq. reflexivity. }
  split.
  - intros m Hm. split; [|reflexivity].
    cbn [parsePages]. unfold mbind at 1, M_bind at 1. rewrite Hpage.
    unfold bot_sendMessage. unfold_M. rewrite Hm. reflexivity.
  - intros e' m He' Hm. cbn [parsePages]. unfold mbind at 1, M_bind at 1. rewrite Hpage.
    unfold bot_sendMessage. unfold_M. rewrite He'. simpl. rewrite Hm. reflexivity.
Qed.

(** A page of one product in a world where the enrichment service is down. *)
Definition evirma_down_env : Env :=
  {| axios_reply := fun n =>
       match n with
       | O => Ret (VObj [("data", VObj [("products", VArr [VObj [("name", VStr "A")]])])])
       | _ => Throw (Error "Network Error")
       end;
     telegram_reply := fun n => Ret (Z.of_nat n);
     fs_reply := fun _ => Ret tt;
     clock := fun n => Z.of_nat n |}.

Lemma enrichment_failure_aborts_loop_witness :
  let s3 := (queryEvirmaApi evirma_down_env [VStr "A"]
               (updateLogMessage evirma_down_env 7 "Страница 1: получено 1 товаров"
                  (scrapeWbPageWithQueue evirma_down_env (fun _ => "") 1 dom_category 7
                     initial_state).2).2).2 in
  let s4 := tick_telegram
              (emit (ESendMessage 7 ("❌ " +:+
                       "Ошибка при запросе к Evirma API: Network Error")) s3) in
  parsePages evirma_down_env (fun _ => "") 50 1 dom_category 7 initial_state = (Ret tt, s4) /\
  results s4 = results s3.
Proof.
  apply (proj1 (enrichment_failure_aborts_loop evirma_down_env (fun _ => "") 1 dom_category 7
                  initial_state
                  (VObj [("data", VObj [("products", VArr [VObj [("name", VStr "A")]])])])
                  "Страница 1: получено 1 товаров"
                  (scrapeWbPageWithQueue evirma_down_env (fun _ => "") 1 dom_category 7
                     initial_state).2
                  (updateLogMessage evirma_down_env 7 "Страница 1: получено 1 товаров"
                     (scrapeWbPageWithQueue evirma_down_env (fun _ => "") 1 dom_category 7
                        initial_state).2).2
                  [VStr "A"]
                  (Error "Ошибка при запросе к Evirma API: Network Error")
                  (queryEvirmaApi evirma_down_env [VStr "A"]
                     (updateLogMessage evirma_down_env 7 "Страница 1: получено 1 товаров"
                        (scrapeWbPageWithQueue evirma_down_env (fun _ => "") 1 dom_category 7
                           initial_state).2).2).2
                  49
                  ltac:(vm_compute; reflexivity) ltac:(vm_compute; reflexivity)
                  ltac:(reflexivity) ltac:(done) ltac:(vm_compute; reflexivity)) 1%Z).
  vm_compute. reflexivity.
Defined.

Lemma prop_opt_returns v key : exists r, Js.prop_opt v key = Ret r.
Proof. destruct v; simpl; eauto. Qed.

(** [response.data.data?.products?.length] throws only on a body that is
    [null] or [undefined], and then a TypeError, which has no response. *)
Lemma productsCount_throws data e :
  productsCount data = Throw e ->
  (data = VNull \/ data = VUndef) /\ response e = None.
Proof.
  unfold productsCount. intros H.
  destruct (Js.prop data "data") as [d|e0] eqn:Hd.
  - exfalso. cbn [mbind outcome_bind] in H.
    destruct (prop_opt_returns d "products") as [p Hp]. rewrite Hp in H.
    cbn [mbind outcome_bind] in H.
    destruct (prop_opt_returns p "length") as [n Hn]. rewrite Hn in H.
    discriminate H.
  - cbn [mbind outcome_bind] in H. injection H as <-.
    destruct data; simpl in Hd; try discriminate Hd; injection Hd as <-; auto.
Qed.

(** A page answered with a body that is [null] is a failure that is not
    retried: the TypeError raised on reading the body is caught by the same
    handler as a network error, after one request. *)
Theorem malformed_page_body_is_fatal env J page category userId s data e :
  axios_reply env (axios_calls s) = Ret data ->
  productsCount data = Throw e ->
  exists s' new,
    scrapeWbPage env J page category userId s =
      (Throw (Error ("Ошибка при получении данных со страницы " +:+ pretty page +:+
                     ": " +:+ message e)), s') /\
    trace s' = trace s ++ new /\
    timeline new = [EGet (page_url page category)].
Proof.
  intros Hd He. destruct (productsCount_throws data e He) as [_ Hresp].
  unfold scrapeWbPage, SCRAPE_MAX_RETRIES.
  unfold mbind at 1, M_bind at 1, log at 1, modify at 1.
  cbn [scrapeWbPage_attempts].
  unfold try_catch at 1. unfold mbind at 1, M_bind at 1, axios_get at 1.
  cbn [axios_calls emit]. rewrite Hd.
  unfold eval at 1. unfold mbind at 1, M_bind at 1. rewrite He.
  unfold is_429, scrape_errorMessage. rewrite Hresp. unfold log. unfold_M.
  eexists _, _. split; [reflexivity|]. simpl. rewrite <- !app_assoc.
  split; [reflexivity|]. reflexivity.
Qed.

Definition null_body_env : Env :=
  {| axios_reply := fun _ => Ret VNull;
     telegram_reply := fun n => Ret (Z.of_nat n);
     fs_reply := fun _ => Ret tt;
     clock := fun n => Z.of_nat n |}.

Lemma malformed_page_body_is_fatal_witness :
  exists s' new,
    scrapeWbPage null_body_env (fun _ => "") 1 dom_category 7 initial_state =
      (Throw (Error ("Ошибка при получении данных со страницы " +:+ pretty 1%Z +:+ ": " +:+
                     "Cannot read properties of null or undefined (reading 'data')")), s') /\
    trace s' = trace initial_state ++ new /\
    timeline new = [EGet (page_url 1 dom_category)].
Proof.
  apply (malformed_page_body_is_fatal null_body_env (fun _ => "") 1 dom_category 7
           initial_state VNull
           (TypeError "Cannot read properties of null or undefined (reading 'data')")).
  - reflexivity.
  - reflexivity.
Defined.

(** ** Matching a path against the catalog *)

Lemma strip_trailing_slashes_slash s :
  Js.strip_trailing_slashes (s +:+ "/") = Js.strip_trailing_slashes s.
Proof.
  induction s as [|c s IH]; [reflexivity|].
  change (String c s +:+ "/") with (String c (s +:+ "/")).
  cbn [Js.strip_trailing_slashes]. by rewrite IH.
Qed.

Lemma toLowerCase_app s t : Js.toLowerCase (s +:+ t) = Js.toLowerCase s +:+ Js.toLowerCase t.
Proof.
  induction s as [|c s IH]; [reflexivity|].
  change (String c s +:+ t) with (String c (s +:+ t)).
  cbn [Js.toLowerCase]. rewrite IH. reflexivity.
Qed.

Lemma lower_ascii_idem c : Js.lower_ascii (Js.lower_ascii c) = Js.lower_ascii c.
Proof.
  unfold Js.lower_ascii.
  destruct ((65 <=? nat_of_ascii c) && (nat_of_ascii c <=? 90))%nat eqn:E; [|by rewrite E].
  apply andb_true_iff in E as [E1 E2]. apply Nat.leb_le in E1, E2.
  rewrite Ascii.nat_ascii_embedding by lia.
  destruct ((65 <=? nat_of_ascii c + 32) && (nat_of_ascii c + 32 <=? 90))%nat eqn:E'; [|done].
  apply andb_true_iff in E' as [_ E']. apply Nat.leb_le in E'. lia.
Qed.

Lemma toLowerCase_idem s : Js.toLowerCase (Js.toLowerCase s) = Js.toLowerCase s.
Proof.
  induction s as [|c s IH]; [reflexivity|].
  cbn [Js.toLowerCase]. by rewrite lower_ascii_idem, IH.
Qed.

(** The search looks at the path only through its normal form. *)
Lemma find_category_normal_form categories :
  forall p q,
    normalize (VStr p) = normalize (VStr q) ->
    find_category p categories = find_category q categories.
Proof.
  induction categories as [|c rest IH]; intros p q Hpq; [reflexivity|].
  cbn [find_category]. rewrite Hpq, (IH p q Hpq). reflexivity.
Qed.

(** Path matching ignores trailing slashes and the case of ASCII letters:
    a path with one more slash at its end, and a path put in lower case,
    find what the path itself finds, and the same holds on the side of the
    catalog, where a node whose [url] has another case or trailing slashes
    is the same candidate. *)
Theorem path_matching_ignores_case_and_slashes categories p :
  find_category (p +:+ "/") categories = find_category p categories /\
  find_category (Js.toLowerCase p) categories = find_category p categories /\
  (forall c u,
     url c = VStr u ->
     find_category p (c :: categories) =
       if String.eqb (Js.strip_trailing_slashes (Js.toLowerCase u))
                     (Js.strip_trailing_slashes (Js.toLowerCase p))
       then Ret (Some c) else find_category p categories).
Proof.
  split; [|split].
  - apply find_category_normal_form. cbn [normalize].
    by rewrite toLowerCase_app, strip_trailing_slashes_slash.
  - apply find_category_normal_form. cbn [normalize]. by rewrite toLowerCase_idem.
  - intros c u Hu. cbn [find_category]. rewrite Hu. reflexivity.
Qed.

(** The first match wins: the search returns a category exactly when its
    [url] has the normal form of the path and every entry before it has a
    string [url] with another normal form; it returns nothing exactly when
    every entry has a string [url] with another normal form. *)
Theorem first_match_wins p categories :
  (forall c,
     find_category p categories = Ret (Some c) <->
     exists before after,
       categories = before ++ c :: after /\
       normalize (url c) = normalize (VStr p) /\
       Forall (fun c' => exists n, normalize (url c') = Ret n /\
                                   normalize (VStr p) <> Ret n) before) /\
  (find_category p categories = Ret None <->
   Forall (fun c' => exists n, normalize (url c') = Ret n /\
                               normalize (VStr p) <> Ret n) categories).
Proof.
  assert (Hp : normalize (VStr p) = Ret (Js.strip_trailing_slashes (Js.toLowerCase p)))
    by reflexivity.
  set (np := Js.strip_trailing_slashes (Js.toLowerCase p)) in *.
  induction categories as [|c0 rest [IHsome IHnone]].
  - split.
    + intros c. split; [done|]. intros (before & after & Heq & _). by destruct before.
    + split; [constructor|reflexivity].
  - assert (Hstep : find_category p (c0 :: rest) =
                    match normalize (url c0) with
                    | Ret n => if String.eqb n np then Ret (Some c0) else find_category p rest
                    | Throw e => Throw e
                    end).
    { cbn [find_category]. rewrite Hp. by destruct (normalize (url c0)). }
    split.
    + intros c. rewrite Hstep. split.
      * destruct (normalize (url c0)) as [n|e] eqn:Hn; [|done].
        destruct (String.eqb_spec n np) as [->|Hne].
        -- intros [= <-]. exists [], rest. rewrite Hn, Hp. split; [done|]. by split.
        -- intros Hfind. apply IHsome in Hfind as (before & after & -> & Hc & Hb).
           exists (c0 :: before), after. split; [done|]. split; [done|].
           constructor; [|done]. exists n. split; [done|]. rewrite Hp. congruence.
      * intros (before & after & Heq & Hc & Hb).
        destruct before as [|b before]; simpl in Heq; injection Heq as -> ->.
        -- rewrite Hc, Hp. by rewrite String.eqb_refl.
        -- apply Forall_cons in Hb as [(n & Hn & Hne) Hb]. rewrite Hn.
           destruct (String.eqb_spec n np) as [->|_]; [by rewrite Hp in Hne|].
           apply IHsome. by exists before, after.
    + rewrite Hstep. split.
      * destruct (normalize (url c0)) as [n|e] eqn:Hn; [|done].
        destruct (String.eqb_spec n np) as [->|Hne]; [done|].
        intros Hfind. constructor; [|by apply IHnone].
        exists n. split; [done|]. rewrite Hp. congruence.
      * intros Hall. apply Forall_cons in Hall as [(n & Hn & Hne) Hall]. rewrite Hn.
        destruct (String.eqb_spec n np) as [->|_]; [by rewrite Hp in Hne|].
        by apply IHnone.
Qed.

(** ** Sessions that stop at the resolver *)

(** When the path matches no category, the session writes one more log line
    after the resolver, sends nothing to the user, requests no page, and
    returns [false] after the clean-up. *)
Theorem category_not_found_ends_session env J T P url userId st s1 :
  userId ∉ activeParsingUsers st ->
  findCategoryByUrl env J P url (marked userId st) = (Ret None, s1) ->
  parseCategory env J T P url userId st =
    (Ret (VBool false),
     finished env T userId st
       (emit (ELog "warning" "Category not found. Check the URL.") s1)).
Proof.
  intros Hfree Hfind. apply parseCategory_free_run; [exact Hfree|].
  unfold try_catch, parseCategory_try. unfold mbind at 1, M_bind at 1. rewrite Hfind.
  reflexivity.
Qed.

Lemma category_not_found_ends_session_witness :
  parseCategory scenario_env (fun _ => "") (fun _ => "") Url.parse "https://x/catalog/sad" 7
    initial_state =
    (Ret (VBool false),
     finished scenario_env (fun _ => "") 7 initial_state
       (emit (ELog "warning" "Category not found. Check the URL.")
          (findCategoryByUrl scenario_env (fun _ => "") Url.parse "https://x/catalog/sad"
             (marked 7 initial_state)).2)).
Proof.
  apply (category_not_found_ends_session scenario_env (fun _ => "") (fun _ => "") Url.parse
           "https://x/catalog/sad" 7 initial_state).
  - apply not_elem_of_empty.
  - vm_compute. reflexivity.
Defined.

(** The catalog is fetched only while none is held: with a catalog in the
    state the resolver sends no request and keeps it; without one it sends
    one request, keeps the answer when there is one, and otherwise throws
    the error of the request and holds no catalog. *)
Theorem catalog_is_fetched_once env J P url s :
  let s' := (findCategoryByUrl env J P url s).2 in
  (Js.truthy (catalogData s) = true ->
     axios_calls s' = axios_calls s /\ catalogData s' = catalogData s) /\
  (Js.truthy (catalogData s) = false ->
     axios_calls s' = S (axios_calls s) /\
     match axios_reply env (axios_calls s) with
     | Ret catalog => catalogData s' = catalog
     | Throw e =>
         catalogData s' = catalogData s /\ (findCategoryByUrl env J P url s).1 = Throw e
     end).
Proof.
  unfold findCategoryByUrl, fetchWbCatalog, extractCategoryData, log, axios_get.
  unfold_M. split; intros Ht; rewrite Ht; simpl.
  - destruct (P url) as [u|]; simpl; [|done].
    destruct (find_category _ _) as [[c|]|e]; simpl; done.
  - destruct (axios_reply env (axios_calls s)) as [catalog|e]; simpl; [|done].
    destruct (P url) as [u|]; simpl; [|done].
    destruct (find_category _ _) as [[c|]|e]; simpl; done.
Qed.

Lemma catalog_is_fetched_once_witness :
  let s1 := (findCategoryByUrl scenario_env (fun _ => "") Url.parse "https://x/catalog/dom"
               initial_state).2 in
  axios_calls (findCategoryByUrl scenario_env (fun _ => "") Url.parse "https://x/catalog/dom" s1).2
    = axios_calls s1 /\
  catalogData (findCategoryByUrl scenario_env (fun _ => "") Url.parse "https://x/catalog/dom" s1).2
    = catalogData s1.
Proof.
  apply (proj1 (catalog_is_fetched_once scenario_env (fun _ => "") Url.parse "https://x/catalog/dom"
                  (findCategoryByUrl scenario_env (fun _ => "") Url.parse "https://x/catalog/dom"
                     initial_state).2)).
  vm_compute. reflexivity.
Defined.

(** ** Product names *)

(** The name a product contributes: that of an object with a [name]. *)
Definition product_name (product : jsval) : option jsval :=
  match product with
  | VObj fields => Js.assoc "name" fields
  | _ => None
  end.

Definition is_primitive (v : jsval) : bool :=
  match v with
  | VObj _ | VArr _ => false
  | _ => true
  end.

Lemma filterO_named (products : list jsval) :
  Forall (fun p => is_primitive p = false) products ->
  filterO (Js.has "name") products =
    Ret (filter (fun p => is_Some (product_name p)) products).
Proof.
  induction 1 as [|p rest Hp Hrest IH]; [reflexivity|].
  cbn [filterO]. rewrite IH, filter_cons.
  destruct (decide (is_Some (product_name p))) as [Hs|Hn].
  - destruct p as [| |b|n|s|items|fields]; try (by destruct Hs).
    cbn [Js.has product_name] in *. by rewrite bool_decide_eq_true_2.
  - destruct p as [| |b|n|s|items|fields]; try discriminate Hp; [reflexivity|].
    cbn [Js.has product_name] in *. by rewrite bool_decide_eq_false_2.
Qed.

Lemma mapO_named (products : list jsval) :
  mapO (fun product => Js.prop product "name")
       (filter (fun p => is_Some (product_name p)) products) =
    Ret (omap product_name products).
Proof.
  induction products as [|p rest IH]; [reflexivity|].
  rewrite filter_cons.
  change (omap product_name (p :: rest))
    with (match product_name p with
          | Some y => y :: omap product_name rest
          | None => omap product_name rest
          end).
  destruct (decide (is_Some (product_name p))) as [[v Hv]|Hn].
  - cbn [mapO]. rewrite IH, Hv.
    destruct p as [| |b|n|s|items|fields]; try discriminate Hv. simpl in *.
    by rewrite Hv.
  - destruct (product_name p) as [v|] eqn:Hv; [exfalso; apply Hn; eauto|exact IH].
Qed.

(** [processProducts] returns the names of the products that have one, in
    the order of the page; a body without [data] or without [products]
    gives no name; and a product that is not an object makes it throw. *)
Theorem processProducts_names :
  (forall body d products,
     Js.assoc "data" body = Some (VObj d) ->
     Js.assoc "products" d = Some (VArr products) ->
     Forall (fun p => is_primitive p = false) products ->
     processProducts (VObj body) = Ret (omap product_name products)) /\
  (forall body, Js.assoc "data" body = None -> processProducts (VObj body) = Ret []) /\
  (forall body d,
     Js.assoc "data" body = Some (VObj d) -> Js.assoc "products" d = None ->
     processProducts (VObj body) = Ret []) /\
  (forall body d p rest,
     Js.assoc "data" body = Some (VObj d) ->
     Js.assoc "products" d = Some (VArr (p :: rest)) ->
     is_primitive p = true ->
     exists e, processProducts (VObj body) = Throw e).
Proof.
  split; [|split; [|split]].
  - intros body d products Hd Hp Hobj. unfold processProducts. simpl. rewrite Hd. simpl.
    rewrite Hp. simpl. rewrite (filterO_named products Hobj). simpl. apply mapO_named.
  - intros body Hd. unfold processProducts. simpl. rewrite Hd. reflexivity.
  - intros body d Hd Hp. unfold processProducts. simpl. rewrite Hd. simpl. rewrite Hp.
    reflexivity.
  - intros body d p rest Hd Hp Hprim. unfold processProducts. simpl. rewrite Hd. simpl.
    rewrite Hp. simpl. destruct p; try discriminate Hprim; simpl; eauto.
Qed.

Lemma processProducts_names_witness :
  processProducts
    (VObj [("data", VObj [("products",
             VArr [VObj [("id", VNum 1); ("name", VStr "A")]; VObj [("id", VNum 2)];
                   VObj [("name", VStr "B")]])])]) =
    Ret (omap product_name
           [VObj [("id", VNum 1); ("name", VStr "A")]; VObj [("id", VNum 2)];
            VObj [("name", VStr "B")]]).
Proof.
  apply (proj1 processProducts_names
           [("data", VObj [("products",
               VArr [VObj [("id", VNum 1); ("name", VStr "A")]; VObj [("id", VNum 2)];
                     VObj [("name", VStr "B")]])])]
           [("products",
               VArr [VObj [("id", VNum 1); ("name", VStr "A")]; VObj [("id", VNum 2)];
                     VObj [("name", VStr "B")]])]).
  - reflexivity.
  - reflexivity.
  - repeat constructor.
Defined.

(** ** The progress message *)

Definition PROGRESS_TITLE : string := "📄 *Логи парсинга:*".

Lemma updateLogMessage_accumulates_general env userId logMessage s :
  let s' := (updateLogMessage env userId logMessage s).2 in
  (logMessages s !! userId = None ->
     match telegram_reply env (telegram_calls s) with
     | Ret message_id =>
         (updateLogMessage env userId logMessage s).1 = Ret tt /\
         logMessages s' = <[userId := (message_id, [logMessage])]> (logMessages s) /\
         trace s' = trace s ++ [ELog "info" logMessage;
                                ESendMessage userId (PROGRESS_TITLE +:+ nl +:+ logMessage)]
     | Throw e =>
         (updateLogMessage env userId logMessage s).1 = Throw e /\
         logMessages s' = logMessages s
     end) /\
  (forall message_id text,
     logMessages s !! userId = Some (message_id, text) ->
     (updateLogMessage env userId logMessage s).1 = Ret tt /\
     logMessages s' = <[userId := (message_id, text ++ [logMessage])]> (logMessages s) /\
     exists rest,
       trace s' = trace s ++
         ELog "info" logMessage ::
         EEditMessage userId message_id
           (PROGRESS_TITLE +:+ nl +:+ Js.join nl (text ++ [logMessage])) :: rest).
Proof.
  unfold updateLogMessage, log, bot_sendMessage, bot_editMessageText. unfold_M.
  cbv zeta. cbn [logMessages emit telegram_calls]. split.
  - intros ->. simpl. destruct (telegram_reply env (telegram_calls s)) as [m|e]; simpl.
    + split; [done|]. split; [done|]. by rewrite <- app_assoc.
    + done.
  - intros message_id text ->. simpl.
    destruct (telegram_reply env (telegram_calls s)) as [m|e]; simpl.
    + split; [done|]. split; [done|]. exists []. by rewrite <- app_assoc.
    + split; [done|]. split; [done|]. eexists. rewrite <- !app_assoc. reflexivity.
Qed.

(** The first progress line of a user is sent as a new message, whose id is
    kept with the line; when the message cannot be sent the call throws and
    nothing is kept.  Every later line is appended to the lines kept and the
    same message is edited to show them all; a failed edit is only logged,
    and the line stays kept. *)
Theorem updateLogMessage_accumulates env userId logMessage s :
  let s' := (updateLogMessage env userId logMessage s).2 in
  (logMessages s !! userId = None ->
     match telegram_reply env (telegram_calls s) with
     | Ret message_id =>
         (updateLogMessage env userId logMessage s).1 = Ret tt /\
         logMessages s' = <[userId := (message_id, [logMessage])]> (logMessages s) /\
         trace s' = trace s ++ [ELog "info" logMessage;
                                ESendMessage userId (PROGRESS_TITLE +:+ nl +:+ logMessage)]
     | Throw e =>
         (updateLogMessage env userId logMessage s).1 = Throw e /\
         logMessages s' = logMessages s
     end) /\
  (forall message_id text,
     logMessages s !! userId = Some (message_id, text) ->
     (updateLogMessage env userId logMessage s).1 = Ret tt /\
     logMessages s' = <[userId := (message_id, text ++ [logMessage])]> (logMessages s) /\
     exists rest,
       trace s' = trace s ++
         ELog "info" logMessage ::
         EEditMessage userId message_id
           (PROGRESS_TITLE +:+ nl +:+ Js.join nl (text ++ [logMessage])) :: rest).
Proof. apply updateLogMessage_accumulates_general. Qed.

(** Lines sent one after the other to a user who has a progress message are
    all kept, in order, under the id of that message, whatever the Telegram
    client answers to the edits. *)
Theorem progress_lines_are_kept_in_order env userId lines :
  forall s message_id text,
    logMessages s !! userId = Some (message_id, text) ->
    logMessages (fold_left (fun s line => (updateLogMessage env userId line s).2) lines s)
      !! userId = Some (message_id, text ++ lines).
Proof.
  induction lines as [|line lines IH]; intros s message_id text Hs; simpl.
  - by rewrite app_nil_r.
  - destruct (proj2 (updateLogMessage_accumulates_general env userId line s) message_id text Hs)
      as (_ & Hl & _).
    rewrite (IH _ message_id (text ++ [line])).
    + by rewrite <- app_assoc.
    + rewrite Hl. apply lookup_insert_eq.
Qed.

(** ** Exporting and delivering the report *)

(** The name and the path of the report of a session that reaches the
    export at clock value [now]. *)
Definition report_filename (category : Category) (now : Z) : string :=
  Js.ToString (name category) +:+ "_analysis_" +:+ pretty now.

Definition report_path (category : Category) (now : Z) : string :=
  "/tmp/output/" +:+ report_filename category now +:+ ".xlsx".

(** With rows collected and a file system and a Telegram client that work,
    the report step writes all the rows to one file named after the
    category and the time, checks that file, sends that same file to the
    user, schedules its deletion after 15 seconds, and returns [true]. *)
Theorem report_exports_then_delivers env category userId s m :
  results s <> [] ->
  fs_reply env (fs_calls s) = Ret tt ->
  fs_reply env (S (fs_calls s)) = Ret tt ->
  telegram_reply env (telegram_calls s) = Ret m ->
  let filePath := report_path category (clock env (clock_reads s)) in
  exists s',
    report env category userId s = (Ret (VBool true), s') /\
    trace s' = trace s ++
      [EWriteFile filePath (results s);
       ELog "info" ("Saved Excel to " +:+ filePath);
       EAccess filePath;
       ESendDocument userId filePath;
       ELog "info" ("Excel report sent to user " +:+ pretty userId +:+ ": " +:+ filePath);
       ESetTimeout 15000 filePath].
Proof.
  intros Hrows Hw Ha Hm filePath.
  unfold report, saveToExcel, sendExcelToUser, Date_now, fs_writeFile, fs_access,
    bot_sendDocument, log. unfold_M.
  destruct (results s) as [|row rows] eqn:Hres; [done|]. simpl.
  rewrite Hw. simpl. rewrite Ha. simpl. rewrite Hm. simpl.
  eexists. split; [reflexivity|]. simpl. rewrite <- !app_assoc. reflexivity.
Qed.

Definition one_row : Row := {| term := "a"; productCount := VNum 5; monthlyFrequency := VNum 10 |}.

Lemma report_exports_then_delivers_witness :
  exists s',
    report scenario_env dom_category 7 (set_results [one_row] initial_state) =
      (Ret (VBool true), s') /\
    trace s' = trace (set_results [one_row] initial_state) ++
      [EWriteFile (report_path dom_category 0) [one_row];
       ELog "info" ("Saved Excel to " +:+ report_path dom_category 0);
       EAccess (report_path dom_category 0);
       ESendDocument 7 (report_path dom_category 0);
       ELog "info" ("Excel report sent to user " +:+ pretty 7%Z +:+ ": " +:+
                    report_path dom_category 0);
       ESetTimeout 15000 (report_path dom_category 0)].
Proof.
  apply (report_exports_then_delivers scenario_env dom_category 7
           (set_results [one_row] initial_state) 0%Z).
  - done.
  - reflexivity.
  - reflexivity.
  - reflexivity.
Defined.

(** When the rows cannot be written the report step throws and sends
    nothing.  When the file is written but cannot be read back or cannot be
    sent, the user gets an error message instead of the document, no
    deletion is scheduled, and the step still returns [true]. *)
Theorem report_failures env category userId s :
  results s <> [] ->
  let filePath := report_path category (clock env (clock_reads s)) in
  let written := [EWriteFile filePath (results s);
                  ELog "info" ("Saved Excel to " +:+ filePath)] in
  let notice e := [ESendMessage userId ("❌ Ошибка при отправке файла: " +:+ message e);
                   ELog "error" ("Failed to send Excel to user " +:+ pretty userId +:+
                                 ": " +:+ message e)] in
  (forall e,
     fs_reply env (fs_calls s) = Throw e ->
     exists s',
       report env category userId s = (Throw e, s') /\
       trace s' = trace s ++ [EWriteFile filePath (results s)]) /\
  (forall e m,
     fs_reply env (fs_calls s) = Ret tt ->
     fs_reply env (S (fs_calls s)) = Throw e ->
     telegram_reply env (telegram_calls s) = Ret m ->
     exists s',
       report env category userId s = (Ret (VBool true), s') /\
       trace s' = trace s ++ written ++ [EAccess filePath] ++ notice e) /\
  (forall e m,
     fs_reply env (fs_calls s) = Ret tt ->
     fs_reply env (S (fs_calls s)) = Ret tt ->
     telegram_reply env (telegram_calls s) = Throw e ->
     telegram_reply env (S (telegram_calls s)) = Ret m ->
     exists s',
       report env category userId s = (Ret (VBool true), s') /\
       trace s' = trace s ++ written ++
                  [EAccess filePath; ESendDocument userId filePath] ++ notice e).
Proof.
  intros Hrows filePath written notice.
  unfold report, saveToExcel, sendExcelToUser, Date_now, fs_writeFile, fs_access,
    bot_sendDocument, bot_sendMessage, log. unfold_M.
  destruct (results s) as [|row rows] eqn:Hres; [done|]. simpl.
  split; [|split].
  - intros e Hw. rewrite Hw. simpl. eexists. split; [reflexivity|]. reflexivity.
  - intros e m Hw Ha Hm. rewrite Hw. simpl. rewrite Ha. simpl. rewrite Hm. simpl.
    eexists. split; [reflexivity|]. simpl. rewrite <- !app_assoc. reflexivity.
  - intros e m Hw Ha Hd Hm. rewrite Hw. simpl. rewrite Ha. simpl. rewrite Hd. simpl.
    rewrite Hm. simpl. eexists. split; [reflexivity|]. simpl. rewrite <- !app_assoc.
    reflexivity.
Qed.

(** A world in which the file written cannot be read back. *)
Definition unreadable_file_env : Env :=
  {| axios_reply := fun _ => Throw (Error "Network Error");
     telegram_reply := fun n => Ret (Z.of_nat n);
     fs_reply := fun n => match n with
                          | O => Ret tt
                          | _ => Throw (Error "ENOENT: no such file or directory")
                          end;
     clock := fun n => Z.of_nat n |}.

Lemma report_failures_witness :
  exists s',
    report unreadable_file_env dom_category 7 (set_results [one_row] initial_state) =
      (Ret (VBool true), s') /\
    trace s' = trace (set_results [one_row] initial_state) ++
      [EWriteFile (report_path dom_category 0) [one_row];
       ELog "info" ("Saved Excel to " +:+ report_path dom_category 0)] ++
      [EAccess (report_path dom_category 0)] ++
      [ESendMessage 7 ("❌ Ошибка при отправке файла: " +:+
                       "ENOENT: no such file or directory");
       ELog "error" ("Failed to send Excel to user " +:+ pretty 7%Z +:+ ": " +:+
                     "ENOENT: no such file or directory")].
Proof.
  apply (proj1 (proj2 (report_failures unreadable_file_env dom_category 7
                         (set_results [one_row] initial_state) ltac:(done)))
           (Error "ENOENT: no such file or directory") 0%Z).
  - reflexivity.
  - reflexivity.
  - reflexivity.
Defined.

(** ** The handlers of the bot

    [BotHandlers] keeps, beside the process, the object [waitingForUrl].  A
    handler is a computation on both.  An incoming message is its sender and
    its text, which is missing for a message without text; the keyboards
    passed to [bot.sendMessage] are left out of the trace. *)

Record Msg := mkMsg {
  msg_from : Z;
  msg_text : option string
}.

Record Update := mkUpdate {
  update_message : option Msg
}.

Record BotState := mkBot {
  process : State;
  waitingForUrl : gmap Z string
}.

Definition H (A : Type) : Type := BotState -> outcome A * BotState.

#[global] Instance H_ret : MRet H := fun _ a b => (Ret a, b).
#[global] Instance H_bind : MBind H := fun _ _ f m b =>
  match m b with
  | (Ret a, b') => f a b'
  | (Throw e, b') => (Throw e, b')
  end.

(** A method of the services, run on the process. *)
Definition lift {A} (m : M A) : H A := fun b =>
  let '(r, s) := m (process b) in (r, mkBot s (waitingForUrl b)).

Definition throw_H {A} (e : error) : H A := fun b => (Throw e, b).

Definition try_catch_H {A} (m : H A) (handler : error -> H A) : H A := fun b =>
  match m b with
  | (Ret a, b') => (Ret a, b')
  | (Throw e, b') => handler e b'
  end.

Definition get_bot : H BotState := fun b => (Ret b, b).

Definition modify_waiting (f : gmap Z string -> gmap Z string) : H unit := fun b =>
  (Ret tt, mkBot (process b) (f (waitingForUrl b))).

(** [this.waitingForUrl[userId]] as a condition. *)
Definition waiting (b : BotState) (userId : Z) : bool :=
  match waitingForUrl b !! userId with
  | Some v => Js.truthy (VStr v)
  | None => false
  end.

(** [clearLogMessages] of [LogService]. *)
Definition clearLogMessages (userId : Z) : M unit :=
  modify (fun s => set_logMessages (delete userId (logMessages s)) s).

Definition WB_PREFIX : string := "https://www.wildberries.ru/catalog/".

(** The double quote character, as a string. *)
Definition dquote : string := String (ascii_of_nat 34) EmptyString.

Section Handlers.

(** The outside world, the functions of the runtime, the administrators
    read from the environment at start-up, and [String.prototype.trim]. *)
Variable env : Env.
Variable JSON_stringify : jsval -> string.
Variable seconds_toFixed2 : Z -> string.
Variable URL_new : string -> option URL.
Variable adminIds : list Z.
Variable trim : string -> string.

Definition send (userId : Z) (text : string) : H unit :=
  lift (bot_sendMessage env userId text);; mret tt.

Definition start (msg : Msg) : H unit :=
  send (msg_from msg)
    ("🛍️ *Wilberries Parser Frequency Bot*" +:+ nl +:+ nl +:+
     "Этот бот анализирует категории Wildberries и предоставляет статистику частоты поиска товаров." +:+
     nl +:+ nl +:+ "Доступные команды:" +:+ nl +:+
     "/parse - Запросить анализ категории" +:+ nl +:+
     "/list - Показать список админов (только для админов)").

Definition listAdmins (msg : Msg) : H unit :=
  let adminsList := Js.join nl (map (fun id => "- " +:+ pretty id) adminIds) in
  send (msg_from msg) ("📋 Список админов:" +:+ nl +:+ adminsList).

Definition manualParse (msg : Msg) : H unit :=
  modify_waiting (<[msg_from msg := "manual"]>);;
  send (msg_from msg)
    ("🔗 Пожалуйста, отправьте URL категории Wildberries в формате:" +:+ nl +:+
     "https://www.wildberries.ru/catalog/<category>/" +:+ nl +:+
     "Например: https://www.wildberries.ru/catalog/dom-i-dacha/vannaya/aksessuary").

(** The [try] block of [handleText] around the session. *)
Definition runSession (text : string) (userId : Z) : H unit :=
  try_catch_H
    (success ← lift (parseCategory env JSON_stringify seconds_toFixed2 URL_new text userId);
     lift (clearLogMessages userId);;
     modify_waiting (delete userId);;
     send userId (if Js.truthy success then "✅ Парсинг завершён."
                  else "❌ Ошибка: Категория не найдена."))
    (fun error =>
       send userId ("❌ Ошибка при получении категории: " +:+ message error);;
       modify_waiting (delete userId)).

Definition handleText (msg : Msg) : H unit :=
  let userId := msg_from msg in
  text ← match msg_text msg with
         | Some t => mret (trim t)
         | None => throw_H (TypeError "Cannot read properties of undefined (reading 'trim')")
         end;
  if String.eqb text "Парсить" then manualParse msg
  else if String.eqb text "Список подписчиков" then listAdmins msg
  else if String.eqb text "Отмена" then
    b ← get_bot;
    if waiting b userId then
      modify_waiting (delete userId);;
      send userId "❌ Ввод URL отменён."
    else mret tt
  else
    b ← get_bot;
    if waiting b userId then
      if bool_decide (userId ∈ activeParsingUsers (process b)) then
        send userId
          "⏳ Парсинг уже выполняется. Пожалуйста, дождитесь завершения текущего процесса."
      else if negb (String.prefix WB_PREFIX text) then
        send userId
          ("❌ Ошибка: Неверный URL. Ссылка должна быть с сайта www.wildberries.ru и начинаться с " +:+
           dquote +:+ WB_PREFIX +:+ dquote)
      else
        send userId "🔄 Запускаю анализ категории...";;
        runSession text userId
    else mret tt.

Definition handleUnauthorized (msg : Msg) : H unit :=
  lift (log ("Unauthorized access attempt from user " +:+ pretty (msg_from msg)) "warning");;
  send (msg_from msg) "❌ У вас нет доступа к этому боту.".

Definition processUpdate (update : Update) : H unit :=
  match update_message update with
  | None => mret tt
  | Some msg =>
      if negb (bool_decide (msg_from msg ∈ adminIds)) then handleUnauthorized msg
      else match msg_text msg with
           | Some "/start" => start msg
           | Some "/list" => listAdmins msg
           | Some "/parse" => manualParse msg
           | _ => handleText msg
           end
  end.


End Handlers.

Ltac unfold_H :=
  unfold mbind, mret, H_bind, H_ret, try_catch_H, throw_H, get_bot, modify_waiting, lift in *.

Section HandlerProperties.

Variable env : Env.
Variable JSON_stringify : jsval -> string.
Variable seconds_toFixed2 : Z -> string.
Variable URL_new : string -> option URL.
Variable adminIds : list Z.
Variable trim : string -> string.


(** A message from a user who is not an administrator is logged and
    answered with a refusal, and that is all: the process and
    [waitingForUrl] are otherwise as before, so no session starts and no
    request is sent for such a user. *)
Theorem unauthorized_user_is_refused msg b :
  msg_from msg ∉ adminIds ->
  processUpdate env JSON_stringify seconds_toFixed2 URL_new adminIds trim (mkUpdate (Some msg)) b =
    (_ ← telegram_reply env (telegram_calls (process b)); Ret tt,
     mkBot (tick_telegram
              (emit (ESendMessage (msg_from msg) "❌ У вас нет доступа к этому боту.")
                 (emit (ELog "warning" ("Unauthorized access attempt from user " +:+
                                        pretty (msg_from msg)))
                    (process b))))
           (waitingForUrl b)).
Proof.
  intros Hno. unfold processUpdate. cbn [update_message].
  rewrite bool_decide_eq_false_2 by done. cbn [negb].
  unfold handleUnauthorized, send, log, bot_sendMessage. unfold_H. unfold_M. simpl.
  destruct (telegram_reply env (telegram_calls (process b))); reflexivity.
Qed.


(** [handleText] leaves the parser alone unless the user was asked for a URL
    and the trimmed text starts with the Wildberries catalog prefix: in
    every other case it sends no HTTP request and changes neither the
    active users, nor the rows, nor the catalog held. *)
Theorem handleText_needs_a_catalog_url msg b :
  (forall t, msg_text msg = Some t ->
     waiting b (msg_from msg) = false \/ String.prefix WB_PREFIX (trim t) = false) ->
  let s' := process (handleText env JSON_stringify seconds_toFixed2 URL_new adminIds trim msg b).2 in
  axios_calls s' = axios_calls (process b) /\
  activeParsingUsers s' = activeParsingUsers (process b) /\
  results s' = results (process b) /\
  catalogData s' = catalogData (process b).
Proof.
  intros Hcond s'. subst s'.
  assert (Hgen : forall r b',
            handleText env JSON_stringify seconds_toFixed2 URL_new adminIds trim msg b = (r, b') ->
            axios_calls (process b') = axios_calls (process b) /\
            activeParsingUsers (process b') = activeParsingUsers (process b) /\
            results (process b') = results (process b) /\
            catalogData (process b') = catalogData (process b)).
  { intros r b'. unfold handleText.
    destruct (msg_text msg) as [t|] eqn:Ht; [|by unfold_H; intros [= <- <-]].
    specialize (Hcond t eq_refl).
    unfold mbind at 1, H_bind at 1, mret at 1, H_ret at 1.
    destruct (String.eqb (trim t) "Парсить").
    { unfold manualParse, send, bot_sendMessage. unfold_H. unfold_M. simpl.
      destruct (telegram_reply env _); intros [= <- <-]; simpl; auto. }
    destruct (String.eqb (trim t) "Список подписчиков").
    { unfold listAdmins, send, bot_sendMessage. unfold_H. unfold_M. simpl.
      destruct (telegram_reply env _); intros [= <- <-]; simpl; auto. }
    destruct (String.eqb (trim t) "Отмена").
    { unfold send, bot_sendMessage. unfold_H. unfold_M. simpl.
      destruct (waiting b (msg_from msg)); simpl; [|by intros [= <- <-]].
      destruct (telegram_reply env _); intros [= <- <-]; simpl; auto. }
    unfold mbind at 1, H_bind at 1, get_bot at 1.
    destruct (waiting b (msg_from msg)) eqn:Hw; [|by intros [= <- <-]].
    destruct Hcond as [Hc|Hc]; [discriminate Hc|]. rewrite Hc. cbn [negb].
    destruct (bool_decide _);
      unfold send, bot_sendMessage; unfold_H; unfold_M; simpl;
      destruct (telegram_reply env _); intros [= <- <-]; simpl; auto. }
  destruct (handleText env JSON_stringify seconds_toFixed2 URL_new adminIds trim msg b) as [r b'] eqn:E. by apply (Hgen r).
Qed.


End HandlerProperties.

(** ** Runs of the handlers and of the progress message *)

Lemma updateLogMessage_accumulates_witness :
  (updateLogMessage scenario_env 7 "page 2"
     (updateLogMessage scenario_env 7 "page 1" initial_state).2).1 = Ret tt /\
  logMessages (updateLogMessage scenario_env 7 "page 2"
                 (updateLogMessage scenario_env 7 "page 1" initial_state).2).2 =
    <[7 := (0, ["page 1"] ++ ["page 2"])]>
      (logMessages (updateLogMessage scenario_env 7 "page 1" initial_state).2) /\
  exists rest,
    trace (updateLogMessage scenario_env 7 "page 2"
             (updateLogMessage scenario_env 7 "page 1" initial_state).2).2 =
      trace (updateLogMessage scenario_env 7 "page 1" initial_state).2 ++
      ELog "info" "page 2" ::
      EEditMessage 7 0 (PROGRESS_TITLE +:+ nl +:+ Js.join nl (["page 1"] ++ ["page 2"]))
      :: rest.
Proof.
  apply (proj2 (updateLogMessage_accumulates scenario_env 7 "page 2"
                  (updateLogMessage scenario_env 7 "page 1" initial_state).2) 0%Z ["page 1"]).
  vm_compute. reflexivity.
Defined.

Lemma progress_lines_are_kept_in_order_witness :
  logMessages
    (fold_left (fun s line => (updateLogMessage scenario_env 7 line s).2)
       ["page 2"; "page 3"] (updateLogMessage scenario_env 7 "page 1" initial_state).2)
    !! 7 = Some (0%Z, ["page 1"] ++ ["page 2"; "page 3"]).
Proof.
  apply (progress_lines_are_kept_in_order scenario_env 7 ["page 2"; "page 3"]
           (updateLogMessage scenario_env 7 "page 1" initial_state).2 0%Z ["page 1"]).
  vm_compute. reflexivity.
Defined.

Lemma path_matching_ignores_case_and_slashes_witness :
  find_category "/Catalog/DOM//"
    ({| name := VStr "Dom"; shard := VNull; url := VStr "/catalog/dom/"; query := VNull |}
       :: []) =
    if String.eqb (Js.strip_trailing_slashes (Js.toLowerCase "/catalog/dom/"))
                  (Js.strip_trailing_slashes (Js.toLowerCase "/Catalog/DOM//"))
    then Ret (Some {| name := VStr "Dom"; shard := VNull; url := VStr "/catalog/dom/";
                      query := VNull |})
    else find_category "/Catalog/DOM//" [].
Proof.
  apply (proj2 (proj2 (path_matching_ignores_case_and_slashes [] "/Catalog/DOM//"))
           {| name := VStr "Dom"; shard := VNull; url := VStr "/catalog/dom/";
              query := VNull |} "/catalog/dom/").
  reflexivity.
Defined.

(** A bot whose only administrator is user 7, who was asked for a URL. *)
Definition waiting_bot : BotState :=
  {| process := initial_state; waitingForUrl := {[7 := "manual"]} |}.

Lemma unauthorized_user_is_refused_witness :
  processUpdate scenario_env (fun _ => "") (fun _ => "") Url.parse [7] (fun t => t)
    (mkUpdate (Some (mkMsg 8 (Some "/parse")))) waiting_bot =
    (_ ← telegram_reply scenario_env (telegram_calls (process waiting_bot)); Ret tt,
     mkBot (tick_telegram
              (emit (ESendMessage 8 "❌ У вас нет доступа к этому боту.")
                 (emit (ELog "warning" ("Unauthorized access attempt from user " +:+
                                        pretty 8%Z))
                    (process waiting_bot))))
           (waitingForUrl waiting_bot)).
Proof.
  apply (unauthorized_user_is_refused scenario_env (fun _ => "") (fun _ => "") Url.parse [7]
           (fun t => t) (mkMsg 8 (Some "/parse")) waiting_bot).
  simpl. rewrite elem_of_cons, elem_of_nil. intros [H|H]; [discriminate H|exact H].
Defined.

Lemma handleText_needs_a_catalog_url_witness :
  let s' := process (handleText scenario_env (fun _ => "") (fun _ => "") Url.parse [7] (fun t => t)
                       (mkMsg 7 (Some "https://example.com/catalog/dom")) waiting_bot).2 in
  axios_calls s' = axios_calls (process waiting_bot) /\
  activeParsingUsers s' = activeParsingUsers (process waiting_bot) /\
  results s' = results (process waiting_bot) /\
  catalogData s' = catalogData (process waiting_bot).
Proof.
  apply (handleText_needs_a_catalog_url scenario_env (fun _ => "") (fun _ => "") Url.parse [7]
           (fun t => t) (mkMsg 7 (Some "https://example.com/catalog/dom")) waiting_bot).
  intros t [= <-]. right. reflexivity.
Defined.

